(** * RAG pipeline of mermaid_llm: retrieval, generation, orchestration, indexing

    A shallow embedding of the Python package [mermaid_llm.rag] and of its
    two callers:
    - [config.py]      the settings record,
    - [retriever.py]   [SourceInfo], [RetrievalResult], [DocumentRetriever.retrieve],
    - [prompts.py]     the prompt template,
    - [nodes/generate.py], [nodes/retrieve.py]  the two graph nodes,
    - [chain.py]       [run_rag] and [stream_rag],
    - [loaders.py]     the format loaders, [load_document], [load_directory],
    - [indexer.py]     [DocumentIndexer] and its store handle,
    - [splitter.py]    [create_text_splitter],
    - [api/routers/rag.py]       the SSE generator of the streaming endpoint,
    - [scripts/create_index.py]  [main].

    Python generators are modelled by the list of the values they yield,
    exceptions by values that carry the exception's message, and the external
    collaborators (vector store, chat model, file parsers, the text splitter
    of langchain) by records of functions. *)

From Stdlib Require Import ZArith QArith Lia Sorted.
From stdpp Require Import base list strings gmap pretty.

Open Scope Z_scope.

(* ================================================================== *)
(** ** Python helpers *)

(** The line feed character, written [\n] in the Python sources. *)
Definition LF : string := String (Ascii.ascii_of_nat 10) EmptyString.

(** [x or d] on an [int | None] argument: [None] and [0] are both falsy. *)
Definition or_default (x : option Z) (d : Z) : Z :=
  match x with
  | Some v => if Z.eqb v 0 then d else v
  | None => d
  end.

(** [f"{x}"] for an [int | None] value. *)
Definition format_int (x : option Z) : string :=
  match x with
  | Some n => pretty n
  | None => "None"
  end.

(** [f"{x}"] for a [str | None] value. *)
Definition format_str (x : option string) : string :=
  match x with
  | Some s => s
  | None => "None"
  end.

(** [str.lower] on the ASCII letters. *)
Definition lower_ascii (c : Ascii.ascii) : Ascii.ascii :=
  let n := Ascii.nat_of_ascii c in
  if (Nat.leb 65 n && Nat.leb n 90)%bool
  then Ascii.ascii_of_nat (n + 32)%nat else c.

Fixpoint lower (s : string) : string :=
  match s with
  | EmptyString => EmptyString
  | String c rest => String (lower_ascii c) (lower rest)
  end.

(* ================================================================== *)
(** ** config.py *)

Record RAGSettings := {
  llm_model : string;
  llm_provider : string;
  docs_dir : string;
  chunk_size : Z;
  chunk_overlap : Z;
  retrieval_k : Z;
}.

(** The field defaults of [RAGSettings]; the environment may override them. *)
Definition default_settings : RAGSettings := {|
  llm_model := "gemma3:4b";
  llm_provider := "ollama";
  docs_dir := "data/docs";
  chunk_size := 1000;
  chunk_overlap := 200;
  retrieval_k := 4;
|}.

(* ================================================================== *)
(** ** Documents (langchain_core.documents.Document)

    [metadata] is a dict; the record lists the keys the loaders write and the
    retriever reads, an absent key being [None] (which is also what
    [metadata.get(key)] returns for it). *)

Record Metadata := {
  md_source : option string;
  md_filename : option string;
  md_page : option Z;
  md_slide : option Z;
  md_sheet : option string;
}.

Record Document := {
  page_content : string;
  metadata : Metadata;
}.

(* ================================================================== *)
(** ** retriever.py

    Scores are Python floats that the retriever only carries along
    ([float(score)] leaves a float unchanged); their type is a parameter. *)

Record SourceInfo (Score : Type) := {
  filename : string;
  page : option Z;
  slide : option Z;
  sheet : option string;
  score : Score;
}.
Arguments filename {Score} _.
Arguments page {Score} _.
Arguments slide {Score} _.
Arguments sheet {Score} _.
Arguments score {Score} _.

(** [SourceInfo.from_document] *)
Definition from_document {Score : Type} (doc : Document) (sc : Score)
  : SourceInfo Score := {|
  filename := default "unknown" (md_filename (metadata doc));
  page := md_page (metadata doc);
  slide := md_slide (metadata doc);
  sheet := md_sheet (metadata doc);
  score := sc;
|}.

Record RetrievalResult (Score : Type) := {
  documents : list Document;
  sources : list (SourceInfo Score);
}.
Arguments documents {Score} _.
Arguments sources {Score} _.

(** The [context] property of [RetrievalResult]. *)
Definition CONTEXT_SEPARATOR : string := LF +:+ LF +:+ "---" +:+ LF +:+ LF.

Definition result_context {Score : Type} (r : RetrievalResult Score) : string :=
  String.concat CONTEXT_SEPARATOR (map page_content (documents r)).

(** The string [source_key] built in the loop of [retrieve]:
    [f"{source.filename}:{source.page}:{source.slide}:{source.sheet}"]. *)
Definition source_key {Score : Type} (s : SourceInfo Score) : string :=
  filename s +:+ ":" +:+ format_int (page s) +:+ ":" +:+
  format_int (slide s) +:+ ":" +:+ format_str (sheet s).

(** The body of the [for doc, score in results] loop of [retrieve], with the
    three local variables [documents], [sources] and [seen_sources]. *)
Fixpoint retrieve_loop {Score : Type} (results : list (Document * Score))
    (docs : list Document) (srcs : list (SourceInfo Score))
    (seen_sources : gset string) : RetrievalResult Score :=
  match results with
  | [] => {| documents := docs; sources := srcs |}
  | (doc, sc) :: rest =>
      let docs := docs ++ [doc] in
      let source := from_document doc sc in
      let key := source_key source in
      if decide (key ∈ seen_sources)
      then retrieve_loop rest docs srcs seen_sources
      else retrieve_loop rest docs (srcs ++ [source]) ({[key]} ∪ seen_sources)
  end.

(** [DocumentRetriever]: the default [k] and the similarity search of the
    vector store behind the indexer (Chroma, an external collaborator). *)
Record DocumentRetriever (Score : Type) := {
  self_k : Z;
  similarity_search_with_score : string -> Z -> list (Document * Score);
}.
Arguments self_k {Score} _.
Arguments similarity_search_with_score {Score} _ _ _.

(** [DocumentRetriever.__init__] *)
Definition new_retriever {Score : Type} (rag_settings : RAGSettings)
    (search : string -> Z -> list (Document * Score)) (k : option Z)
  : DocumentRetriever Score := {|
  self_k := or_default k (retrieval_k rag_settings);
  similarity_search_with_score := search;
|}.

(** [DocumentRetriever.retrieve]; [aretrieve] calls it unchanged. *)
Definition retrieve {Score : Type} (self : DocumentRetriever Score)
    (query : string) (k : option Z) : RetrievalResult Score :=
  let k := or_default k (self_k self) in
  let results := similarity_search_with_score self query k in
  retrieve_loop results [] [] ∅.

Definition aretrieve {Score : Type} (self : DocumentRetriever Score)
    (query : string) (k : option Z) : RetrievalResult Score :=
  retrieve self query k.

(** The dedup key of the data model: the tuple of the four citation fields. *)
Definition source_tuple {Score : Type} (s : SourceInfo Score)
  : string * option Z * option Z * option string :=
  (filename s, page s, slide s, sheet s).

(* ================================================================== *)
(** ** Messages and the chat model (langchain_core) *)

Inductive BaseMessage :=
  | SystemMessage (content : string)
  | HumanMessage (content : string)
  | AIMessage (content : string).

(** The [content] of a model message: a string, or a list whose items are
    strings or dicts. *)
Inductive ContentPart :=
  | PartStr (s : string)
  | PartDict (d : gmap string string).

Inductive Content :=
  | ContentStr (s : string)
  | ContentList (parts : list ContentPart).

(** One item of [llm.astream(prompt)]; [is_ai_message] is the outcome of
    [isinstance(chunk, AIMessage)]. *)
Record StreamChunk := {
  is_ai_message : bool;
  chunk_content : Content;
}.

(** A stub chat model: what [ainvoke] answers and what [astream] emits. *)
Record BaseChatModel := {
  ainvoke : list BaseMessage -> Content;
  astream : list BaseMessage -> list StreamChunk;
}.

(* ================================================================== *)
(** ** prompts.py *)

(** [RAG_SYSTEM_PROMPT] up to its placeholder [{context}]; a line feed
    follows the placeholder. *)
Definition RAG_SYSTEM_PROMPT_HEAD : string :=
"あなたは提供された文書に基づいて質問に回答するアシスタントです。

以下のルールに従ってください：
1. 回答は必ず提供されたコンテキスト（参照文書）に基づいてください
2. コンテキストに情報がない場合は、「提供された文書にはその情報が含まれていません」と正直に伝えてください
3. 回答は日本語で、簡潔かつ正確に行ってください
4. 必要に応じて、参照した文書の情報を引用してください

## 参照文書
".

(** [rag_prompt.format_messages(context=..., messages=...)] for the default
    template [create_rag_prompt()]: the system message, then the history. *)
Definition format_messages (context : string) (messages : list BaseMessage)
  : list BaseMessage :=
  SystemMessage (RAG_SYSTEM_PROMPT_HEAD +:+ context +:+ LF) :: messages.

(* ================================================================== *)
(** ** state.py *)

Record RAGState (Score : Type) := {
  messages : list BaseMessage;
  query : string;
  retrieved_docs : list Document;
  context : string;
  state_sources : list (SourceInfo Score);
  response : string;
  is_streaming : bool;
  model : string;
  provider : string;
}.
Arguments messages {Score} _.
Arguments query {Score} _.
Arguments retrieved_docs {Score} _.
Arguments context {Score} _.
Arguments state_sources {Score} _.
Arguments response {Score} _.
Arguments is_streaming {Score} _.
Arguments model {Score} _.
Arguments provider {Score} _.

(** What the modules reach through their imports: the settings, the default
    retriever and the chat model factory [get_default_llm(streaming)]. *)
Record Env (Score : Type) := {
  rag_settings : RAGSettings;
  get_retriever : DocumentRetriever Score;
  get_default_llm : bool -> BaseChatModel;
}.
Arguments rag_settings {Score} _.
Arguments get_retriever {Score} _.
Arguments get_default_llm {Score} _ _.

(* ================================================================== *)
(** ** nodes/generate.py *)

(** [c if isinstance(c, str) else c.get("text", "")] *)
Definition part_text (c : ContentPart) : string :=
  match c with
  | PartStr s => s
  | PartDict d => default "" (d !! "text")
  end.

(** The extraction of the text of a [content], as both [generate] and
    [generate_streaming] write it out. *)
Definition extract_content (c : Content) : string :=
  match c with
  | ContentStr s => s
  | ContentList parts => String.concat "" (map part_text parts)
  end.

(** Truth value of a [content]: a non-empty string or a non-empty list. *)
Definition truthy (c : Content) : bool :=
  match c with
  | ContentStr EmptyString => false
  | ContentStr _ => true
  | ContentList [] => false
  | ContentList _ => true
  end.

(** The dict returned by the [generate] node. *)
Record GenerateUpdate := {
  gen_response : string;
  gen_model : string;
  gen_provider : string;
}.

Definition generate {Score : Type} (env : Env Score) (state : RAGState Score)
  : GenerateUpdate :=
  let prompt := format_messages (context state) (messages state) in
  let llm := get_default_llm env false in
  let response := ainvoke llm prompt in
  {| gen_response := extract_content response;
     gen_model := llm_model (rag_settings env);
     gen_provider := llm_provider (rag_settings env) |}.

(** A dict yielded by [generate_streaming]; [model] and [provider] are
    present in the final one only. *)
Record StreamUnit := {
  unit_response : string;
  unit_is_streaming : bool;
  unit_model : option string;
  unit_provider : option string;
}.

(** The [async for chunk in llm.astream(prompt)] loop: the units it yields
    and the value of [accumulated] when it ends. *)
Fixpoint stream_loop (chunks : list StreamChunk) (accumulated : string)
  : list StreamUnit * string :=
  match chunks with
  | [] => ([], accumulated)
  | chunk :: rest =>
      if is_ai_message chunk && truthy (chunk_content chunk)
      then
        let accumulated := accumulated +:+ extract_content (chunk_content chunk) in
        let '(units, final) := stream_loop rest accumulated in
        ({| unit_response := accumulated;
            unit_is_streaming := true;
            unit_model := None;
            unit_provider := None |} :: units, final)
      else stream_loop rest accumulated
  end.

Definition generate_streaming {Score : Type} (env : Env Score)
    (state : RAGState Score) : list StreamUnit :=
  let prompt := format_messages (context state) (messages state) in
  let llm := get_default_llm env true in
  let '(units, accumulated) := stream_loop (astream llm prompt) "" in
  units ++ [ {| unit_response := accumulated;
                unit_is_streaming := false;
                unit_model := Some (llm_model (rag_settings env));
                unit_provider := Some (llm_provider (rag_settings env)) |} ].

(* ================================================================== *)
(** ** nodes/retrieve.py *)

Record RetrieveUpdate (Score : Type) := {
  upd_retrieved_docs : list Document;
  upd_context : string;
  upd_sources : list (SourceInfo Score);
}.
Arguments upd_retrieved_docs {Score} _.
Arguments upd_context {Score} _.
Arguments upd_sources {Score} _.

Definition retrieve_node {Score : Type} (env : Env Score)
    (state : RAGState Score) : RetrieveUpdate Score :=
  let result := aretrieve (get_retriever env) (query state) None in
  {| upd_retrieved_docs := documents result;
     upd_context := result_context result;
     upd_sources := sources result |}.

(* ================================================================== *)
(** ** chain.py *)

(** One entry of [chat_history]: a dict [{"role": str, "content": str}]. *)
Record ChatTurn := {
  role : string;
  turn_content : string;
}.

(** The conversion of the history that opens both [run_rag] and
    [stream_rag]: the loop over [chat_history], then the current query. *)
Fixpoint history_messages (chat_history : list ChatTurn) : list BaseMessage :=
  match chat_history with
  | [] => []
  | msg :: rest =>
      if String.eqb (role msg) "user"
      then HumanMessage (turn_content msg) :: history_messages rest
      else if String.eqb (role msg) "assistant"
      then AIMessage (turn_content msg) :: history_messages rest
      else history_messages rest
  end.

Definition build_messages (query : string) (chat_history : option (list ChatTurn))
  : list BaseMessage :=
  let messages :=
    match chat_history with
    | Some [] | None => []
    | Some h => history_messages h
    end in
  messages ++ [HumanMessage query].

Definition initial_state {Score : Type} (query : string)
    (chat_history : option (list ChatTurn)) (streaming : bool)
  : RAGState Score := {|
  messages := build_messages query chat_history;
  query := query;
  retrieved_docs := [];
  context := "";
  state_sources := [];
  response := "";
  is_streaming := streaming;
  model := "";
  provider := "";
|}.

(** The compiled graph START -> retrieve -> generate -> END: each node reads
    the state and the keys of the dict it returns overwrite the state's. *)
Definition apply_retrieve {Score : Type} (s : RAGState Score)
    (u : RetrieveUpdate Score) : RAGState Score := {|
  messages := messages s;
  query := query s;
  retrieved_docs := upd_retrieved_docs u;
  context := upd_context u;
  state_sources := upd_sources u;
  response := response s;
  is_streaming := is_streaming s;
  model := model s;
  provider := provider s;
|}.

Definition apply_generate {Score : Type} (s : RAGState Score)
    (u : GenerateUpdate) : RAGState Score := {|
  messages := messages s;
  query := query s;
  retrieved_docs := retrieved_docs s;
  context := context s;
  state_sources := state_sources s;
  response := gen_response u;
  is_streaming := is_streaming s;
  model := gen_model u;
  provider := gen_provider u;
|}.

Definition rag_graph {Score : Type} (env : Env Score) (s : RAGState Score)
  : RAGState Score :=
  let s := apply_retrieve s (retrieve_node env s) in
  apply_generate s (generate env s).

Definition run_rag {Score : Type} (env : Env Score) (query : string)
    (chat_history : option (list ChatTurn)) : RAGState Score :=
  rag_graph env (initial_state query chat_history false).

(** The dicts yielded by [stream_rag], tagged by their ["event"] entry. *)
Inductive Event (Score : Type) :=
  | SourcesEvent (srcs : list (SourceInfo Score)) (ctx : string)
  | ChunkEvent (resp : string) (streaming : bool)
  | DoneEvent (resp : string) (mdl : string) (prov : string)
      (srcs : list (SourceInfo Score)).
Arguments SourcesEvent {Score} _ _.
Arguments ChunkEvent {Score} _ _.
Arguments DoneEvent {Score} _ _ _ _.

(** The [async for update in generate_streaming(state)] loop of
    [stream_rag]: the events it yields and the binding of [update] when it
    ends ([None] while [update] is unbound). *)
Fixpoint stream_updates {Score : Type} (updates : list StreamUnit)
    (update : option StreamUnit) : list (Event Score) * option StreamUnit :=
  match updates with
  | [] => ([], update)
  | u :: rest =>
      let '(events, last) := stream_updates rest (Some u) in
      (ChunkEvent (unit_response u) (unit_is_streaming u) :: events, last)
  end.

(** The variable [state] of [stream_rag]: the initial state updated with the
    retrieval result. *)
Definition stream_state {Score : Type} (query : string)
    (chat_history : option (list ChatTurn)) (r : RetrievalResult Score)
  : RAGState Score :=
  let initial : RAGState Score := initial_state query chat_history true in
  {| messages := messages initial;
     query := query;
     retrieved_docs := documents r;
     context := result_context r;
     state_sources := sources r;
     response := response initial;
     is_streaming := is_streaming initial;
     model := model initial;
     provider := provider initial |}.

(** [stream_rag]; were [update] unbound after the loop, the generator would
    raise instead of yielding the final event. *)
Definition stream_rag {Score : Type} (env : Env Score) (query : string)
    (chat_history : option (list ChatTurn)) : list (Event Score) :=
  let r := aretrieve (get_retriever env) query None in
  let state := stream_state query chat_history r in
  let '(chunks, update) := stream_updates (generate_streaming env state) None in
  [SourcesEvent (sources r) (result_context r)]
  ++ chunks
  ++ match update with
     | Some u =>
         [DoneEvent (unit_response u) (default "" (unit_model u))
            (default "" (unit_provider u)) (sources r)]
     | None => []
     end.

(* ================================================================== *)
(** ** loaders.py *)

(** What the format loader of a file ([load_pdf], [load_docx], [load_pptx],
    [load_xlsx], [load_txt]: parsers outside the core) does on its bytes:
    it returns documents or raises an exception with a message. *)
Inductive LoadOutcome :=
  | Loaded (docs : list Document)
  | LoadFailed (msg : string).

(** A path found by [directory.glob(pattern)]. *)
Record FileEntry := {
  file_path : string;
  is_file : bool;
  suffix : string;
  parsed : LoadOutcome;
}.

(** The keys of [LOADER_MAP]. *)
Definition SUPPORTED_EXTENSIONS : list string :=
  [".pdf"; ".docx"; ".pptx"; ".xlsx"; ".txt"].

Definition supported (ext : string) : bool :=
  bool_decide (ext ∈ SUPPORTED_EXTENSIONS).

(** [load_document]: [inr msg] is a raised exception. *)
Definition load_document (f : FileEntry) : list Document + string :=
  let ext := lower (suffix f) in
  if supported ext
  then match parsed f with
       | Loaded docs => inl docs
       | LoadFailed msg => inr msg
       end
  else inr ("Unsupported file extension: " +:+ ext).

(** A run of the generator [load_directory]: the documents it yields, the
    lines it prints, and the exception that ends it, if any. *)
Record LoadRun := {
  yielded : list Document;
  printed : list string;
  raised : option string;
}.

(** The [for file_path in directory.glob(pattern)] loop. *)
Fixpoint load_files (files : list FileEntry) : list Document * list string :=
  match files with
  | [] => ([], [])
  | f :: rest =>
      let '(docs, out) := load_files rest in
      if is_file f && supported (lower (suffix f))
      then match load_document f with
           | inl docs_f => (docs_f ++ docs, out)
           | inr e => (docs, ("Error loading " +:+ file_path f +:+ ": " +:+ e) :: out)
           end
      else (docs, out)
  end.

(** [load_directory(directory)], recursive; [listing] is [None] when the
    directory does not exist and else the paths [glob] finds, in its order. *)
Definition load_directory (directory : string) (listing : option (list FileEntry))
  : LoadRun :=
  match listing with
  | None =>
      {| yielded := []; printed := [];
         raised := Some ("Directory does not exist: " +:+ directory) |}
  | Some files =>
      let '(docs, out) := load_files files in
      {| yielded := docs; printed := out; raised := None |}
  end.

(* ================================================================== *)
(** ** splitter.py *)

Definition JAPANESE_SEPARATORS : list string :=
  [ LF +:+ LF; LF; "。"; "、"; "！"; "？"; "."; ","; " "; "" ].

(** The arguments [create_text_splitter] hands to
    [RecursiveCharacterTextSplitter]. *)
Record SplitterConfig := {
  sp_chunk_size : Z;
  sp_chunk_overlap : Z;
  sp_separators : list string;
}.

(** [create_text_splitter]. [constructor] is the constructor of
    [RecursiveCharacterTextSplitter] (langchain_text_splitters): it returns
    the splitter, here its configuration, or raises ([inr msg]). *)
Definition create_text_splitter
    (constructor : SplitterConfig -> SplitterConfig + string)
    (rag_settings : RAGSettings) (chunk_size_arg chunk_overlap_arg : option Z)
  : SplitterConfig + string :=
  constructor {|
    sp_chunk_size := or_default chunk_size_arg (chunk_size rag_settings);
    sp_chunk_overlap := or_default chunk_overlap_arg (chunk_overlap rag_settings);
    sp_separators := JAPANESE_SEPARATORS;
  |}.

(** The module-level default instance [text_splitter]. *)
Definition text_splitter
    (constructor : SplitterConfig -> SplitterConfig + string)
    (rag_settings : RAGSettings) : SplitterConfig + string :=
  create_text_splitter constructor rag_settings None None.

(** Modelled from the spec: the validation inside the constructor of
    [RecursiveCharacterTextSplitter], which is code of the langchain package
    and not of this repository. The spec's policy for a pair with
    [chunk_overlap >= chunk_size] is to reject it with a configuration
    error; every other pair is accepted. *)
Definition rejecting_constructor (c : SplitterConfig) : SplitterConfig + string :=
  if Z.leb (sp_chunk_size c) (sp_chunk_overlap c)
  then inr "chunk_overlap must be smaller than chunk_size"
  else inl c.

(** A constructor that follows the policy: every pair with
    [chunk_overlap >= chunk_size] is rejected. *)
Definition rejects_large_overlap
    (constructor : SplitterConfig -> SplitterConfig + string) : Prop :=
  forall c, sp_chunk_overlap c >= sp_chunk_size c ->
            exists msg, constructor c = inr msg.

(* ================================================================== *)
(** ** indexer.py

    [DocumentIndexer] keeps the handle [_vector_store], created on first use
    by the property [vector_store]. The model records which calls the
    methods make on the store (Chroma, outside the core) and lets every call
    raise; what the store holds afterwards is the store's business. *)

Record IndexResult := {
  indexed_count : Z;
  chunk_count : Z;
  errors : list string;
}.

(** The list [errors] after the load phase of [index_documents]: the
    exception that ended the generator [load_directory], if any. *)
Definition load_errors (run : LoadRun) : list string :=
  match raised run with
  | Some e => ["Error loading documents: " +:+ e]
  | None => []
  end.

Inductive StoreCall :=
  | CreateStore
  | DeleteCollection
  | AddDocuments (chunks : list Document)
  | CountDocuments.

(** How the store answers a call, given the calls made before it: [Some e]
    is an exception with message [e]. *)
Record StoreBehaviour := {
  create_error : list StoreCall -> option string;
  delete_error : list StoreCall -> option string;
  add_error : list StoreCall -> list Document -> option string;
  count_reply : list StoreCall -> Z + string;
}.

(** The state of the indexer: whether [_vector_store] is set, and the calls
    made on the store so far, oldest first. *)
Record IndexerState := {
  store_open : bool;
  calls : list StoreCall;
}.

Module Indexer.

(** A method of the indexer: from a state to a value or a raised exception
    ([inr msg]), and the state afterwards. *)
Definition M (A : Type) : Type := IndexerState -> (A + string) * IndexerState.

Definition ret {A : Type} (a : A) : M A := fun st => (inl a, st).

Definition bind {A B : Type} (m : M A) (k : A -> M B) : M B :=
  fun st =>
    match m st with
    | (inl a, st') => k a st'
    | (inr e, st') => (inr e, st')
    end.

(** [try: m  except Exception as e: handler(e)] *)
Definition try_except {A : Type} (m : M A) (handler : string -> M A) : M A :=
  fun st =>
    match m st with
    | (inl a, st') => (inl a, st')
    | (inr e, st') => handler e st'
    end.

(** The property [vector_store]: the handle is created unless it is set. *)
Definition vector_store (b : StoreBehaviour) : M unit :=
  fun st =>
    if store_open st then (inl tt, st)
    else
      match create_error b (calls st) with
      | Some e => (inr e, {| store_open := false;
                             calls := calls st ++ [CreateStore] |})
      | None => (inl tt, {| store_open := true;
                            calls := calls st ++ [CreateStore] |})
      end.

(** [self._vector_store.delete_collection()] *)
Definition delete_collection (b : StoreBehaviour) : M unit :=
  fun st =>
    let st' := {| store_open := store_open st;
                  calls := calls st ++ [DeleteCollection] |} in
    match delete_error b (calls st) with
    | Some e => (inr e, st')
    | None => (inl tt, st')
    end.

(** [clear_index]: when the handle is set, the collection is deleted, an
    exception of the deletion being swallowed, and the handle is dropped;
    then the handle is created again. *)
Definition clear_index (b : StoreBehaviour) : M unit :=
  bind
    (fun st =>
       if store_open st
       then
         bind (try_except (delete_collection b) (fun _ => ret tt))
              (fun _ st' => (inl tt, {| store_open := false; calls := calls st' |}))
              st
       else (inl tt, st))
    (fun _ => vector_store b).

(** [get_document_count] *)
Definition get_document_count (b : StoreBehaviour) : M Z :=
  try_except
    (bind (vector_store b) (fun _ st =>
       match count_reply b (calls st) with
       | inl n => (inl n, {| store_open := store_open st;
                             calls := calls st ++ [CountDocuments] |})
       | inr e => (inr e, {| store_open := store_open st;
                             calls := calls st ++ [CountDocuments] |})
       end))
    (fun _ => ret 0).

(** [self.vector_store.add_documents(chunks)] *)
Definition add_documents (b : StoreBehaviour) (chunks : list Document) : M unit :=
  bind (vector_store b) (fun _ st =>
    let st' := {| store_open := store_open st;
                  calls := calls st ++ [AddDocuments chunks] |} in
    match add_error b (calls st) chunks with
    | Some e => (inr e, st')
    | None => (inl tt, st')
    end).

(** The body of [index_documents] from [if clear_existing] on, over the run
    [run] that the generator [load_directory(docs_dir)] makes when the loop
    consumes it: the documents it yields and the exception that ends it, if
    any. The [except] clause of the loop records any exception of the
    generator, also one raised after documents were yielded ([glob] and
    [is_file] are called outside the generator's own [try]). [split] is
    [text_splitter.split_documents]. *)
Definition index_run (b : StoreBehaviour)
    (split : list Document -> list Document) (run : LoadRun)
    (clear_existing : bool) : M IndexResult :=
  bind (if clear_existing then clear_index b else ret tt) (fun _ =>
    let documents := yielded run in
    let errors := load_errors run in
    match documents with
    | [] =>
        ret {| indexed_count := 0; chunk_count := 0;
               errors := match errors with
                         | [] => ["No documents found"]
                         | _ => errors
                         end |}
    | _ =>
        let chunks := split documents in
        match chunks with
        | [] =>
            ret {| indexed_count := Z.of_nat (length documents);
                   chunk_count := 0;
                   errors := ["No chunks generated after splitting"] |}
        | _ =>
            try_except
              (bind (add_documents b chunks) (fun _ =>
                 ret {| indexed_count := Z.of_nat (length documents);
                        chunk_count := Z.of_nat (length chunks);
                        errors := errors |}))
              (fun e =>
                 ret {| indexed_count := 0; chunk_count := 0;
                        errors := errors ++
                          ["Error adding to vector store: " +:+ e] |})
        end
    end).

(** [index_documents(docs_dir, clear_existing)] on the indexer object;
    [listdir] is the file system that [load_directory] reads. *)
Definition index_documents (b : StoreBehaviour)
    (listdir : string -> option (list FileEntry))
    (split : list Document -> list Document) (rag_settings : RAGSettings)
    (docs_dir_arg : option string) (clear_existing : bool) : M IndexResult :=
  let dir := default (docs_dir rag_settings) docs_dir_arg in
  index_run b split (load_directory dir (listdir dir)) clear_existing.

End Indexer.

(** The indexer of a fresh process: [get_indexer()] has just built it. *)
Definition fresh_indexer : IndexerState := {| store_open := false; calls := [] |}.

(** The calls a method makes, given the state before and after it. *)
Definition new_calls (before after : IndexerState) : list StoreCall :=
  drop (length (calls before)) (calls after).

(* ================================================================== *)
(** ** Vocabulary of the statements *)

(** A chunk the streaming loop takes up, and the text deltas of a stream. *)
Definition accepted (chunk : StreamChunk) : bool :=
  is_ai_message chunk && truthy (chunk_content chunk).

Definition deltas (chunks : list StreamChunk) : list string :=
  map (fun chunk => extract_content (chunk_content chunk)) (filter accepted chunks).


(** The values [accumulated] takes while the deltas [ds] are appended to
    it one by one. *)
Fixpoint running (accumulated : string) (ds : list string) : list string :=
  match ds with
  | [] => []
  | d :: rest => (accumulated +:+ d) :: running (accumulated +:+ d) rest
  end.

Definition is_prefix (s t : string) : Prop := exists r, t = s +:+ r.

(** Every element is a prefix of all the later ones. *)
Fixpoint prefix_chain (l : list string) : Prop :=
  match l with
  | [] => True
  | s :: rest => Forall (is_prefix s) rest /\ prefix_chain rest
  end.

Definition streaming_unit (text : string) : StreamUnit :=
  {| unit_response := text; unit_is_streaming := true;
     unit_model := None; unit_provider := None |}.

Definition final_unit (rag_settings : RAGSettings) (text : string) : StreamUnit :=
  {| unit_response := text; unit_is_streaming := false;
     unit_model := Some (llm_model rag_settings);
     unit_provider := Some (llm_provider rag_settings) |}.

(** The prompt both generation modes send for a query and its history. *)
Definition prompt_of {Score : Type} (env : Env Score) (query : string)
    (chat_history : option (list ChatTurn)) : list BaseMessage :=
  format_messages (result_context (aretrieve (get_retriever env) query None))
    (build_messages query chat_history).

(** The event a unit of the generator is re-emitted as. *)
Definition chunk_event {Score : Type} (u : StreamUnit) : Event Score :=
  ChunkEvent (unit_response u) (unit_is_streaming u).

(** The responses of the [done] events of a stream. *)
Definition done_responses {Score : Type} (events : list (Event Score))
  : list string :=
  omap (fun e => match e with
                 | DoneEvent resp _ _ _ => Some resp
                 | _ => None
                 end) events.

(** The four-event shape sources, chunk "Hel", chunk "Hello", done "Hello",
    whatever the other fields of the events are. *)
Definition hello_in_four_events {Score : Type} (events : list (Event Score))
  : Prop :=
  exists srcs ctx s1 s2 mdl prov srcs',
    events = [SourcesEvent srcs ctx; ChunkEvent "Hel" s1; ChunkEvent "Hello" s2;
              DoneEvent "Hello" mdl prov srcs'].

(** The string of a citation tuple, and the first citation of a result list
    that has a given string. *)
Definition tuple_key (t : string * option Z * option Z * option string)
  : string :=
  let '(name, pg, sl, sh) := t in
  name +:+ ":" +:+ format_int pg +:+ ":" +:+ format_int sl +:+ ":" +:+
  format_str sh.

Definition citations {Score : Type} (results : list (Document * Score))
  : list (SourceInfo Score) :=
  map (fun '(doc, sc) => from_document doc sc) results.

Definition first_with_key {Score : Type} (k : string)
    (results : list (Document * Score)) : option (SourceInfo Score) :=
  head (filter (fun s => source_key s = k) (citations results)).

(** The first citation of a result list that has a given tuple, and result
    lists on which the formatted key tells the tuples apart. *)
Definition first_with_tuple {Score : Type}
    (t : string * option Z * option Z * option string)
    (results : list (Document * Score)) : option (SourceInfo Score) :=
  head (filter (fun s => source_tuple s = t) (citations results)).

Definition no_key_collision {Score : Type} (results : list (Document * Score))
  : Prop :=
  forall s1 s2 : SourceInfo Score,
    s1 ∈ citations results -> s2 ∈ citations results ->
    source_key s1 = source_key s2 -> source_tuple s1 = source_tuple s2.

(** The message list as the orchestrator's description has it: the turns
    whose role is "user" or "assistant", in order, then the query. *)
Definition kept (turn : ChatTurn) : Prop :=
  role turn = "user" \/ role turn = "assistant".

Definition turn_message (turn : ChatTurn) : BaseMessage :=
  if decide (role turn = "user")
  then HumanMessage (turn_content turn)
  else AIMessage (turn_content turn).

Definition spec_messages (query : string) (chat_history : option (list ChatTurn))
  : list BaseMessage :=
  map turn_message (filter kept (default [] chat_history)) ++ [HumanMessage query].

(** A file of a directory listing that fails to load. *)
Definition fails_to_load (f : FileEntry) (msg : string) : Prop :=
  is_file f = true /\ supported (lower (suffix f)) = true /\
  parsed f = LoadFailed msg.

(* ------------------------------------------------------------------ *)
(** *** Stub collaborators for the scenarios *)

Definition text_chunk (d : string) : StreamChunk :=
  {| is_ai_message := true; chunk_content := ContentStr d |}.

(** A deterministic chat model: it streams the deltas [ds] and its buffered
    answer is [answer]. *)
Definition stub_llm (answer : string) (ds : list string) : BaseChatModel :=
  {| ainvoke := fun _ => ContentStr answer;
     astream := fun _ => map text_chunk ds |}.

Definition stub_env (results : list (Document * Q)) (answer : string)
    (ds : list string) : Env Q :=
  {| rag_settings := default_settings;
     get_retriever := new_retriever default_settings (fun _ _ => results) None;
     get_default_llm := fun _ => stub_llm answer ds |}.

Definition plain_metadata (name : string) : Metadata :=
  {| md_source := Some ("docs/" +:+ name); md_filename := Some name;
     md_page := None; md_slide := None; md_sheet := None |}.

Definition sheet_metadata (name sheet_name : string) : Metadata :=
  {| md_source := Some ("docs/" +:+ name); md_filename := Some name;
     md_page := None; md_slide := None; md_sheet := Some sheet_name |}.

Definition txt_file (name text : string) : FileEntry :=
  {| file_path := "docs/" +:+ name; is_file := true; suffix := ".txt";
     parsed := Loaded [ {| page_content := text;
                           metadata := plain_metadata name |} ] |}.

Definition corrupt_pdf (name : string) : FileEntry :=
  {| file_path := "docs/" +:+ name; is_file := true; suffix := ".pdf";
     parsed := LoadFailed "EOF marker not found" |}.

(** A spreadsheet whose sheet is named [y.txt:None:None:None], and a text
    file named [x.xlsx:None:None:y.txt] that was split into two chunks. *)
Definition sheet_chunk : Document :=
  {| page_content := "Q1 100";
     metadata := sheet_metadata "x.xlsx" "y.txt:None:None:None" |}.

Definition text_chunk_1 : Document :=
  {| page_content := "first part";
     metadata := plain_metadata "x.xlsx:None:None:y.txt" |}.

Definition text_chunk_2 : Document :=
  {| page_content := "second part";
     metadata := plain_metadata "x.xlsx:None:None:y.txt" |}.

Definition colliding_results : list (Document * Q) :=
  [(sheet_chunk, 1 # 10); (text_chunk_1, 2 # 10); (text_chunk_2, 3 # 10)]%Q.

(** A splitter that keeps every document whole. *)
Definition whole_documents (docs : list Document) : list Document := docs.

(** A store on which every call succeeds and which counts [n] documents, one
    whose [add_documents] always raises, and one that cannot be opened. *)
Definition healthy_store (n : Z) : StoreBehaviour :=
  {| create_error := fun _ => None;
     delete_error := fun _ => None;
     add_error := fun _ _ => None;
     count_reply := fun _ => inl n |}.

Definition rejecting_store (e : string) : StoreBehaviour :=
  {| create_error := fun _ => None;
     delete_error := fun _ => None;
     add_error := fun _ _ => Some e;
     count_reply := fun _ => inl 0 |}.


(* ================================================================== *)
(** ** Vocabulary of the further properties *)

(** A stream chunk that carries one part of a structured answer. *)
Definition part_chunk (p : ContentPart) : StreamChunk :=
  {| is_ai_message := true; chunk_content := ContentList [p] |}.

(** A chunk event that is flagged as streaming and whose text is a prefix
    of [resp]. *)
Definition streaming_chunk_of {Score : Type} (resp : string) (e : Event Score)
  : Prop :=
  exists text, e = ChunkEvent text true /\ is_prefix text resp.

(* ================================================================== *)
(** ** api/routers/rag.py: the streaming endpoint

    The payload of an SSE event, which the router serialises with
    [json.dumps], is modelled by the value that is serialised. *)

(** [s[n:]] for [n >= 0], on the bytes of [s]. Python slices code points;
    the two agree where the router uses the slice on the events of
    [stream_rag], [response[len(last_response):]] with [last_response] a
    prefix of [response]: what is left is the rest of [response]. *)
Fixpoint string_drop (n : nat) (s : string) : string :=
  match n, s with
  | O, _ => s
  | S n', String _ rest => string_drop n' rest
  | S _, EmptyString => EmptyString
  end.

(** A run of the async generator [stream_rag(query, chat_history)] as its
    consumer sees it: the events it yields and, when it ends by raising,
    the message of the exception. *)
Record StreamRun (Score : Type) := {
  emitted : list (Event Score);
  failure : option string;
}.
Arguments emitted {Score} _.
Arguments failure {Score} _.

(** The ["data"] of an SSE event, by its ["event"] name. The error event
    also carries the code, category, message and retryable flag of
    [ErrorCode.GENERATION_FAILED], which are the same in every error event. *)
Inductive SSEData (Score : Type) :=
  | MetaData (trace_id mdl prov : string) (session_id : option string)
  | SourcesData (srcs : list (SourceInfo Score))
  | ChunkData (text : string)
  | DoneData (resp : string) (srcs : list (SourceInfo Score))
      (mdl prov : string) (latency_ms : Z) (trace_id : string)
  | ErrorData (details : list string) (trace_id : string).
Arguments MetaData {Score} _ _ _ _.
Arguments SourcesData {Score} _.
Arguments ChunkData {Score} _.
Arguments DoneData {Score} _ _ _ _ _ _.
Arguments ErrorData {Score} _ _.

(** An SSE event; its ["id"] is [f"{trace_id}:{event_id}"]. *)
Record SSEEvent (Score : Type) := {
  sse_event_id : Z;
  sse_data : SSEData Score;
}.
Arguments sse_event_id {Score} _.
Arguments sse_data {Score} _.

Definition sse_id {Score : Type} (trace_id : string) (e : SSEEvent Score) : string :=
  trace_id +:+ ":" +:+ pretty (sse_event_id e).

(** The calls [event_generator] makes on the chat repository. *)
Inductive DbCall (Score : Type) :=
  | AddMessage (session_id role content : string)
      (srcs : list (SourceInfo Score)) (mdl prov : string)
  | Commit.
Arguments AddMessage {Score} _ _ _ _ _ _.
Arguments Commit {Score}.

(** The local variables of [event_generator]. *)
Record GeneratorState (Score : Type) := {
  event_id : Z;
  sources_sent : bool;
  last_response : string;
  final_response : string;
  final_sources : list (SourceInfo Score);
  final_model : string;
  final_provider : string;
}.
Arguments event_id {Score} _.
Arguments sources_sent {Score} _.
Arguments last_response {Score} _.
Arguments final_response {Score} _.
Arguments final_sources {Score} _.
Arguments final_model {Score} _.
Arguments final_provider {Score} _.

(** The body of [async for update in stream_rag(...)] for one update: the
    SSE events it yields and the variables afterwards. [latency_ms] is the
    reading of the clock when the done event is built. *)
Definition on_update {Score : Type} (trace_id : string) (latency_ms : Z)
    (st : GeneratorState Score) (update : Event Score)
  : list (SSEEvent Score) * GeneratorState Score :=
  match update with
  | SourcesEvent srcs _ =>
      if sources_sent st then ([], st)
      else
        let n := event_id st + 1 in
        ([ {| sse_event_id := n; sse_data := SourcesData srcs |} ],
         {| event_id := n; sources_sent := true;
            last_response := last_response st;
            final_response := final_response st;
            final_sources := final_sources st;
            final_model := final_model st;
            final_provider := final_provider st |})
  | ChunkEvent resp _ =>
      if String.eqb resp (last_response st) then ([], st)
      else
        let n := event_id st + 1 in
        let new_content := string_drop (String.length (last_response st)) resp in
        (match new_content with
         | EmptyString => []
         | _ => [ {| sse_event_id := n; sse_data := ChunkData new_content |} ]
         end,
         {| event_id := n; sources_sent := sources_sent st;
            last_response := resp;
            final_response := final_response st;
            final_sources := final_sources st;
            final_model := final_model st;
            final_provider := final_provider st |})
  | DoneEvent resp mdl prov srcs =>
      let n := event_id st + 1 in
      ([ {| sse_event_id := n;
            sse_data := DoneData resp srcs mdl prov latency_ms trace_id |} ],
       {| event_id := n; sources_sent := sources_sent st;
          last_response := last_response st;
          final_response := resp;
          final_sources := srcs;
          final_model := mdl;
          final_provider := prov |})
  end.

Fixpoint on_updates {Score : Type} (trace_id : string) (latency_ms : Z)
    (st : GeneratorState Score) (updates : list (Event Score))
  : list (SSEEvent Score) * GeneratorState Score :=
  match updates with
  | [] => ([], st)
  | update :: rest =>
      let '(events, st') := on_update trace_id latency_ms st update in
      let '(events', st'') := on_updates trace_id latency_ms st' rest in
      (events ++ events', st'')
  end.

(** [event_generator] of [rag_chat_stream], for a validated [session_id]
    (its string form) and the run [stream] of [stream_rag(query,
    chat_history)]: the SSE events it yields and its calls on the
    repository, which are taken to succeed. [trace_id] is the fresh
    [uuid4()]. *)
Definition event_generator {Score : Type} (rag_settings : RAGSettings)
    (trace_id : string) (latency_ms : Z) (session_id : option string)
    (stream : StreamRun Score) : list (SSEEvent Score) * list (DbCall Score) :=
  let meta :=
    {| sse_event_id := 1;
       sse_data := MetaData trace_id (llm_model rag_settings)
                     (llm_provider rag_settings) session_id |} in
  let st0 :=
    {| event_id := 1; sources_sent := false; last_response := "";
       final_response := ""; final_sources := [];
       final_model := llm_model rag_settings;
       final_provider := llm_provider rag_settings |} in
  let '(events, st) := on_updates trace_id latency_ms st0 (emitted stream) in
  match failure stream with
  | None =>
      (meta :: events,
       match session_id, final_response st with
       | Some sid, String _ _ =>
           [AddMessage sid "assistant" (final_response st) (final_sources st)
              (final_model st) (final_provider st);
            Commit]
       | _, _ => []
       end)
  | Some e =>
      (meta :: events ++
         [ {| sse_event_id := event_id st + 1;
              sse_data := ErrorData [e] trace_id |} ],
       [])
  end.

(** The query and the history both chat endpoints take from the request:
    [request.messages[-1].content] and [request.messages[:-1]]. [None]
    stands for the [IndexError] on an empty list, which the request schema
    excludes ([min_length=1]). *)
Definition request_inputs (request_messages : list ChatTurn)
  : option (string * list ChatTurn) :=
  match last request_messages with
  | Some msg => Some (turn_content msg, removelast request_messages)
  | None => None
  end.

(** [data] numbered as SSE events from [n] on. *)
Fixpoint numbered {Score : Type} (n : Z) (data : list (SSEData Score))
  : list (SSEEvent Score) :=
  match data with
  | [] => []
  | d :: rest => {| sse_event_id := n; sse_data := d |} :: numbered (n + 1) rest
  end.

(** The texts of the chunk events and the responses of the done events of
    an SSE stream. *)
Definition chunk_texts {Score : Type} (events : list (SSEEvent Score))
  : list string :=
  omap (fun e => match sse_data e with ChunkData text => Some text | _ => None end)
       events.

Definition sse_done_responses {Score : Type} (events : list (SSEEvent Score))
  : list string :=
  omap (fun e => match sse_data e with
                 | DoneData resp _ _ _ _ _ => Some resp
                 | _ => None
                 end) events.

Definition sources_events {Score : Type} (events : list (SSEEvent Score))
  : list (list (SourceInfo Score)) :=
  omap (fun e => match sse_data e with SourcesData srcs => Some srcs | _ => None end)
       events.

(** A run of [stream_rag] that ends normally. *)
Definition completed {Score : Type} (events : list (Event Score)) : StreamRun Score :=
  {| emitted := events; failure := None |}.

(** Whether the character [c] occurs in [s]. *)
Fixpoint has_char (c : Ascii.ascii) (s : string) : bool :=
  match s with
  | EmptyString => false
  | String c' rest => if Ascii.eqb c' c then true else has_char c rest
  end.

Definition COLON : Ascii.ascii := Ascii.ascii_of_nat 58.

(** Citations whose key cannot be confused with another one's: no colon in
    the file name, and no sheet whose name is the text [None]. *)
Definition plain_citation {Score : Type} (s : SourceInfo Score) : Prop :=
  has_char COLON (filename s) = false /\ sheet s <> Some "None".

(* ================================================================== *)
(** ** loaders.py: the format loaders

    The texts are UTF-8 strings. The parsers (pypdf, python-docx,
    python-pptx) are outside the core; a loader is modelled on what its
    parser extracts from the file. *)

(** Whether [text.strip()] is empty: [text] consists of white space only.
    The white space of [str.strip] is U+0009..U+000D, U+001C..U+0020,
    U+0085, U+00A0, U+1680, U+2000..U+200A, U+2028, U+2029, U+202F, U+205F
    and U+3000, read here in their UTF-8 encoding. *)
Definition ascii_space (n : nat) : bool :=
  (Nat.leb 9 n && Nat.leb n 13) || (Nat.leb 28 n && Nat.leb n 32).

Definition two_byte_space (n1 n2 : nat) : bool :=
  Nat.eqb n1 194 && (Nat.eqb n2 133 || Nat.eqb n2 160).

Definition three_byte_space (n1 n2 n3 : nat) : bool :=
  (Nat.eqb n1 225 && Nat.eqb n2 154 && Nat.eqb n3 128)
  || (Nat.eqb n1 226 && Nat.eqb n2 128
      && ((Nat.leb 128 n3 && Nat.leb n3 138)
          || Nat.eqb n3 168 || Nat.eqb n3 169 || Nat.eqb n3 175))
  || (Nat.eqb n1 226 && Nat.eqb n2 129 && Nat.eqb n3 159)
  || (Nat.eqb n1 227 && Nat.eqb n2 128 && Nat.eqb n3 128).

Fixpoint blank (text : string) : bool :=
  match text with
  | EmptyString => true
  | String c1 rest1 =>
      let n1 := Ascii.nat_of_ascii c1 in
      if ascii_space n1 then blank rest1
      else
        match rest1 with
        | EmptyString => false
        | String c2 rest2 =>
            let n2 := Ascii.nat_of_ascii c2 in
            if two_byte_space n1 n2 then blank rest2
            else
              match rest2 with
              | EmptyString => false
              | String c3 rest3 =>
                  if three_byte_space n1 n2 (Ascii.nat_of_ascii c3)
                  then blank rest3
                  else false
              end
        end
  end.

(** A document as a loader builds it: the [Document] and the two metadata
    keys that only the loaders write. *)
Record LoadedDocument := {
  loaded : Document;
  md_total_pages : option Z;
  md_total_slides : option Z;
}.

(** The document of page [number] of a PDF of [total] pages. [source] is
    [str(file_path)] and [name] is [file_path.name]. *)
Definition pdf_document (source name text : string) (number total : Z)
  : LoadedDocument :=
  {| loaded := {| page_content := text;
                  metadata := {| md_source := Some source;
                                 md_filename := Some name;
                                 md_page := Some number;
                                 md_slide := None; md_sheet := None |} |};
     md_total_pages := Some total;
     md_total_slides := None |}.

(** The loop [for i, page in enumerate(reader.pages)] of [load_pdf], from
    index [i] on; [pages] holds [page.extract_text()] of each page. *)
Fixpoint load_pdf_from (source name : string) (total : Z) (i : nat)
    (pages : list string) : list LoadedDocument :=
  match pages with
  | [] => []
  | text :: rest =>
      (if blank text then []
       else [pdf_document source name text (Z.of_nat i + 1) total])
      ++ load_pdf_from source name total (S i) rest
  end.

Definition load_pdf (source name : string) (pages : list string)
  : list LoadedDocument :=
  load_pdf_from source name (Z.of_nat (length pages)) 0 pages.




(** The texts [load_pptx] collects on a slide; a shape is its [text], or
    [None] when it has no such attribute. *)
Definition slide_texts (shapes : list (option string)) : list string :=
  omap (fun shape => match shape with
                     | Some (String c rest) => Some (String c rest)
                     | _ => None
                     end) shapes.

Definition pptx_document (source name text : string) (number total : Z)
  : LoadedDocument :=
  {| loaded := {| page_content := text;
                  metadata := {| md_source := Some source;
                                 md_filename := Some name;
                                 md_page := None;
                                 md_slide := Some number; md_sheet := None |} |};
     md_total_pages := None;
     md_total_slides := Some total |}.

(** The loop [for i, slide in enumerate(prs.slides)] of [load_pptx]. *)
Fixpoint load_pptx_from (source name : string) (total : Z) (i : nat)
    (slides : list (list (option string))) : list LoadedDocument :=
  match slides with
  | [] => []
  | shapes :: rest =>
      (match slide_texts shapes with
       | [] => []
       | texts => [pptx_document source name (String.concat LF texts)
                     (Z.of_nat i + 1) total]
       end)
      ++ load_pptx_from source name total (S i) rest
  end.

Definition load_pptx (source name : string) (slides : list (list (option string)))
  : list LoadedDocument :=
  load_pptx_from source name (Z.of_nat (length slides)) 0 slides.

(** The citation tuple of a loaded document, as the retriever will see it. *)
Definition loaded_tuple (d : LoadedDocument)
  : string * option Z * option Z * option string :=
  (default "unknown" (md_filename (metadata (loaded d))),
   md_page (metadata (loaded d)), md_slide (metadata (loaded d)),
   md_sheet (metadata (loaded d))).

(** What one path of the listing contributes to a run of [load_directory]:
    the documents of a supported regular file that loads, and the line
    printed for one that fails. *)
Definition file_documents (f : FileEntry) : list Document :=
  if is_file f && supported (lower (suffix f))
  then match parsed f with Loaded docs => docs | LoadFailed _ => [] end
  else [].

Definition file_errors (f : FileEntry) : list string :=
  if is_file f && supported (lower (suffix f))
  then match parsed f with
       | Loaded _ => []
       | LoadFailed msg => ["Error loading " +:+ file_path f +:+ ": " +:+ msg]
       end
  else [].

(* ================================================================== *)
(** ** scripts/create_index.py

    The script runs in a process of its own, so [get_indexer()] builds the
    indexer: its handle is not set and no call has been made on the store.
    Building it asks for the embeddings and may raise. *)

Record ScriptEnv := {
  store : StoreBehaviour;
  file_system : string -> option (list FileEntry);
  splitter_of : list Document -> list Document;
  settings : RAGSettings;
  indexer_error : option string;
}.

(** The parsed command line: [--path], [--clear], [--status]. *)
Record Args := {
  arg_path : option string;
  arg_clear : bool;
  arg_status : bool;
}.

(** [get_indexer()] in a process that has not built the indexer yet. *)
Definition get_indexer (env : ScriptEnv) : Indexer.M unit :=
  fun st =>
    match indexer_error env with
    | Some e => (inr e, st)
    | None => (inl tt, st)
    end.

Module CreateIndex.

(** [show_status()]; its printing is left out. *)
Definition show_status (env : ScriptEnv) : Indexer.M unit :=
  Indexer.bind (get_indexer env) (fun _ =>
  Indexer.bind (Indexer.get_document_count (store env)) (fun _ =>
  Indexer.ret tt)).

(** [index_documents(path, clear)] of the script. *)
Definition index_documents (env : ScriptEnv) (path : option string) (clear : bool)
  : Indexer.M IndexResult :=
  Indexer.bind (get_indexer env) (fun _ =>
    let docs_path := default (docs_dir (settings env)) path in
    Indexer.index_documents (store env) (file_system env) (splitter_of env)
      (settings env) (Some docs_path) clear).

(** [args.path and not args.path.exists()] *)
Definition missing_path (env : ScriptEnv) (args : Args) : bool :=
  match arg_path args with
  | Some p => match file_system env p with Some _ => false | None => true end
  | None => false
  end.

(** [main()]: the exit code. *)
Definition main (env : ScriptEnv) (args : Args) : Indexer.M Z :=
  if arg_status args
  then Indexer.bind (show_status env) (fun _ => Indexer.ret 0)
  else if missing_path env args
  then Indexer.ret 1
  else
    Indexer.bind
      (Indexer.try_except
         (Indexer.bind (index_documents env (arg_path args) (arg_clear args))
            (fun result => Indexer.ret (Some result)))
         (fun _ => Indexer.ret None))
      (fun outcome =>
         match outcome with
         | None => Indexer.ret 1
         | Some result =>
             match errors result with
             | [] => Indexer.ret 0
             | _ => Indexer.ret 1
             end
         end).

End CreateIndex.

(** A call that adds chunks to the store. *)
Definition is_add (c : StoreCall) : bool :=
  match c with AddDocuments _ => true | _ => false end.

(* ================================================================== *)
(** * Properties *)

(** ** Strings *)

Lemma string_app_cons (c : Ascii.ascii) (s t : string) :
  String c s +:+ t = String c (s +:+ t).
Proof. reflexivity. Qed.

Lemma string_app_nil_r (s : string) : s +:+ "" = s.
Proof.
  induction s as [|c s' IH]; [reflexivity|].
  now rewrite string_app_cons, IH.
Qed.

Lemma string_app_assoc (s t u : string) : (s +:+ t) +:+ u = s +:+ t +:+ u.
Proof.
  induction s as [|c s' IH]; [reflexivity|].
  now rewrite !string_app_cons, IH.
Qed.

Lemma concat_empty_cons (d : string) (ds : list string) :
  String.concat "" (d :: ds) = d +:+ String.concat "" ds.
Proof.
  destruct ds as [|d' ds]; simpl.
  - now rewrite string_app_nil_r.
  - reflexivity.
Qed.

Lemma is_prefix_refl (s : string) : is_prefix s s.
Proof. exists "". now rewrite string_app_nil_r. Qed.

Lemma is_prefix_app (s t : string) : is_prefix s (s +:+ t).
Proof. now exists t. Qed.

Lemma is_prefix_trans (s t u : string) :
  is_prefix s t -> is_prefix t u -> is_prefix s u.
Proof.
  intros [r ->] [r' ->]. exists (r +:+ r'). apply string_app_assoc.
Qed.

Lemma concat_empty_app (l1 l2 : list string) :
  String.concat "" (l1 ++ l2) = String.concat "" l1 +:+ String.concat "" l2.
Proof.
  induction l1 as [|d l1 IH]; [reflexivity|].
  change ((d :: l1) ++ l2) with (d :: (l1 ++ l2)).
  now rewrite !concat_empty_cons, IH, string_app_assoc.
Qed.

Lemma concat_nonempty (ds : list string) :
  String.concat "" (filter (fun d => d <> "") ds) = String.concat "" ds.
Proof.
  induction ds as [|d ds IH]; [reflexivity|].
  rewrite filter_cons, concat_empty_cons.
  destruct (decide (d <> "")) as [Hd|Hd].
  - now rewrite concat_empty_cons, IH.
  - assert (d = "") as -> by (destruct (decide (d = "")); [assumption|contradiction]).
    exact IH.
Qed.

(** ** generate_streaming *)


Lemma deltas_cons (chunk : StreamChunk) (chunks : list StreamChunk) :
  deltas (chunk :: chunks) =
  if accepted chunk
  then extract_content (chunk_content chunk) :: deltas chunks
  else deltas chunks.
Proof.
  unfold deltas. rewrite filter_cons.
  destruct (accepted chunk); reflexivity.
Qed.

Lemma stream_loop_running (chunks : list StreamChunk) (acc : string) :
  stream_loop chunks acc =
  (map streaming_unit (running acc (deltas chunks)),
   acc +:+ String.concat "" (deltas chunks)).
Proof.
  revert acc. induction chunks as [|chunk chunks IH]; intros acc.
  - cbn. now rewrite string_app_nil_r.
  - rewrite deltas_cons. cbn [stream_loop]. fold (accepted chunk).
    destruct (accepted chunk); [|apply IH].
    rewrite IH, concat_empty_cons, string_app_assoc. reflexivity.
Qed.

Lemma running_prefixes (ds : list string) (acc : string) :
  Forall (is_prefix acc) (running acc ds ++ [acc +:+ String.concat "" ds])
  /\ prefix_chain (running acc ds ++ [acc +:+ String.concat "" ds]).
Proof.
  revert acc. induction ds as [|d ds IH]; intros acc.
  - cbn. repeat split; auto. repeat constructor. apply is_prefix_app.
  - cbn [running app]. rewrite concat_empty_cons, <- string_app_assoc.
    destruct (IH (acc +:+ d)) as [Hall Hchain].
    assert (Hstep : is_prefix acc (acc +:+ d)) by apply is_prefix_app.
    split; [constructor; [exact Hstep|] | split; [exact Hall | exact Hchain]].
    eapply Forall_impl; [exact Hall|].
    intros t Ht. now apply is_prefix_trans with (acc +:+ d).
Qed.


Lemma generate_streaming_running {Score : Type} (env : Env Score)
    (state : RAGState Score) :
  generate_streaming env state =
  map streaming_unit
    (running "" (deltas (astream (get_default_llm env true)
                           (format_messages (context state) (messages state)))))
  ++ [final_unit (rag_settings env)
        (String.concat "" (deltas (astream (get_default_llm env true)
                           (format_messages (context state) (messages state)))))].
Proof.
  unfold generate_streaming. rewrite stream_loop_running. reflexivity.
Qed.




(** ** chain.py: the event stream *)

Lemma stream_updates_events {Score : Type} (updates : list StreamUnit)
    (update : option StreamUnit) :
  stream_updates (Score := Score) updates update =
  (map chunk_event updates,
   match last updates with Some u => Some u | None => update end).
Proof.
  revert update. induction updates as [|u rest IH]; intros update; [reflexivity|].
  cbn [stream_updates map]. rewrite IH.
  destruct rest as [|u' rest']; [reflexivity|].
  change (last (u :: u' :: rest')) with (last (u' :: rest')).
  destruct (last (u' :: rest')) eqn:Hlast; [reflexivity|].
  apply last_None in Hlast. discriminate Hlast.
Qed.

(** The events of [stream_rag]: the sources, one chunk event per unit of
    the generator (its final unit included), then the done event. *)
Lemma stream_rag_events {Score : Type} (env : Env Score) (query : string)
    (chat_history : option (list ChatTurn)) :
  let r := aretrieve (get_retriever env) query None in
  let ds := deltas (astream (get_default_llm env true)
                      (prompt_of env query chat_history)) in
  stream_rag env query chat_history =
  [SourcesEvent (sources r) (result_context r)]
  ++ map (fun text => ChunkEvent text true) (running "" ds)
  ++ [ChunkEvent (String.concat "" ds) false;
      DoneEvent (String.concat "" ds) (llm_model (rag_settings env))
        (llm_provider (rag_settings env)) (sources r)].
Proof.
  intros r ds. unfold stream_rag. fold r.
  rewrite stream_updates_events, generate_streaming_running.
  change (deltas _) with ds.
  rewrite last_snoc, map_app, map_map. cbn [map app].
  rewrite <- app_assoc. reflexivity.
Qed.

(** C1, as the code has it. When the backend streams exactly the deltas
    "Hel" and "lo", [stream_rag] yields five events: the sources event, the
    chunk events "Hel" and "Hello" with [is_streaming = true], a third chunk
    event that re-emits the generator's final unit ("Hello" with
    [is_streaming = false]), and then the done event "Hello". *)
Theorem stream_rag_hel_lo {Score : Type} (env : Env Score) (query : string)
    (chat_history : option (list ChatTurn)) :
  deltas (astream (get_default_llm env true) (prompt_of env query chat_history))
    = ["Hel"; "lo"] ->
  let r := aretrieve (get_retriever env) query None in
  stream_rag env query chat_history =
  [SourcesEvent (sources r) (result_context r);
   ChunkEvent "Hel" true;
   ChunkEvent "Hello" true;
   ChunkEvent "Hello" false;
   DoneEvent "Hello" (llm_model (rag_settings env))
     (llm_provider (rag_settings env)) (sources r)].
Proof.
  intros Hds r. rewrite stream_rag_events, Hds. reflexivity.
Qed.

Lemma stream_rag_hel_lo_witness :
  stream_rag (stub_env [] "Hello" ["Hel"; "lo"]) "what is in the documents?" None =
  [SourcesEvent [] ""; ChunkEvent "Hel" true; ChunkEvent "Hello" true;
   ChunkEvent "Hello" false; DoneEvent "Hello" "gemma3:4b" "ollama" []].
Proof.
  apply (stream_rag_hel_lo (stub_env [] "Hello" ["Hel"; "lo"])
           "what is in the documents?" None).
  reflexivity.
Defined.

(** C1, as claimed, fails: over the stub backend that streams "Hel" then
    "lo" the event sequence is not the four events sources, chunk "Hel",
    chunk "Hello", done "Hello". *)
Lemma stream_rag_hel_lo_not_four_events :
  ~ hello_in_four_events
      (stream_rag (stub_env [] "Hello" ["Hel"; "lo"])
         "what is in the documents?" None).
Proof.
  intros (srcs & ctx & s1 & s2 & mdl & prov & srcs' & H).
  vm_compute in H. discriminate H.
Qed.

(** C4. For a backend whose buffered answer to the prompt is the
    concatenation of the deltas it streams for that prompt, the stream has
    exactly one done event and its response is the response of the final
    state of [run_rag]. *)
Theorem run_rag_response_is_done_response {Score : Type} (env : Env Score)
    (query : string) (chat_history : option (list ChatTurn)) :
  extract_content (ainvoke (get_default_llm env false)
                     (prompt_of env query chat_history))
  = String.concat "" (deltas (astream (get_default_llm env true)
                                (prompt_of env query chat_history))) ->
  done_responses (stream_rag env query chat_history)
  = [response (run_rag env query chat_history)].
Proof.
  intros Hbackend.
  rewrite stream_rag_events.
  change (response (run_rag env query chat_history))
    with (extract_content (ainvoke (get_default_llm env false)
                             (prompt_of env query chat_history))).
  rewrite Hbackend.
  unfold done_responses. rewrite !omap_app.
  replace (omap _ (map (fun text => ChunkEvent text true) _))
    with (@nil string).
  - reflexivity.
  - generalize (running "" (deltas (astream (get_default_llm env true)
                                      (prompt_of env query chat_history)))).
    intros texts. induction texts as [|t texts IH]; [reflexivity | exact IH].
Qed.

Lemma run_rag_response_is_done_response_witness :
  done_responses (stream_rag (stub_env [] "Hello" ["Hel"; "lo"]) "hi" None)
  = [response (run_rag (stub_env [] "Hello" ["Hel"; "lo"]) "hi" None)].
Proof.
  apply (run_rag_response_is_done_response
           (stub_env [] "Hello" ["Hel"; "lo"]) "hi" None).
  reflexivity.
Defined.

(** ** chain.py: the message list *)

Lemma history_messages_filter (chat_history : list ChatTurn) :
  history_messages chat_history = map turn_message (filter kept chat_history).
Proof.
  induction chat_history as [|msg rest IH]; [reflexivity|].
  cbn [history_messages]. rewrite filter_cons. unfold kept at 1, turn_message at 1.
  destruct (String.eqb_spec (role msg) "user") as [Hu|Hu].
  - rewrite decide_True by (left; exact Hu). cbn [map].
    rewrite decide_True by exact Hu. now rewrite IH.
  - destruct (String.eqb_spec (role msg) "assistant") as [Ha|Ha].
    + rewrite decide_True by (right; exact Ha). cbn [map].
      rewrite decide_False by exact Hu. now rewrite IH.
    + rewrite decide_False by (intros [?|?]; contradiction). exact IH.
Qed.

Lemma build_messages_spec (query : string) (chat_history : option (list ChatTurn)) :
  build_messages query chat_history = spec_messages query chat_history.
Proof.
  unfold build_messages, spec_messages.
  destruct chat_history as [[|msg rest]|]; [reflexivity | | reflexivity].
  now rewrite history_messages_filter.
Qed.

(** C10. [run_rag] and [stream_rag] hand the model the same message list:
    after the system message, the history restricted to the turns whose role
    is "user" or "assistant" (other turns are dropped), in order, as human
    and AI messages, followed by the current query as a human message, which
    is therefore last. It is the message list of [run_rag]'s final state and
    the one its response is generated from; and the events of [stream_rag]
    are those of the backend's stream for that list. *)
Theorem chat_history_messages {Score : Type} (env : Env Score) (query : string)
    (chat_history : option (list ChatTurn)) :
  let r := aretrieve (get_retriever env) query None in
  let prompt :=
    SystemMessage (RAG_SYSTEM_PROMPT_HEAD +:+ result_context r +:+ LF)
    :: spec_messages query chat_history in
  let ds := deltas (astream (get_default_llm env true) prompt) in
  messages (run_rag env query chat_history) = spec_messages query chat_history
  /\ response (run_rag env query chat_history)
     = extract_content (ainvoke (get_default_llm env false) prompt)
  /\ stream_rag env query chat_history
     = [SourcesEvent (sources r) (result_context r)]
       ++ map (fun text => ChunkEvent text true) (running "" ds)
       ++ [ChunkEvent (String.concat "" ds) false;
           DoneEvent (String.concat "" ds) (llm_model (rag_settings env))
             (llm_provider (rag_settings env)) (sources r)]
  /\ last (spec_messages query chat_history) = Some (HumanMessage query).
Proof.
  intros r prompt ds.
  assert (Hprompt : prompt_of env query chat_history = prompt)
    by (unfold prompt_of, format_messages; now rewrite build_messages_spec).
  split; [apply build_messages_spec|].
  split; [|split; [|apply last_snoc]].
  - change (response (run_rag env query chat_history))
      with (extract_content (ainvoke (get_default_llm env false)
                               (prompt_of env query chat_history))).
    now rewrite Hprompt.
  - rewrite stream_rag_events. cbv zeta. now rewrite Hprompt.
Qed.

(** ** retriever.py *)

Lemma source_key_tuple {Score : Type} (s : SourceInfo Score) :
  source_key s = tuple_key (source_tuple s).
Proof. reflexivity. Qed.

Lemma retrieve_loop_documents {Score : Type} (results : list (Document * Score))
    (docs : list Document) (srcs : list (SourceInfo Score)) (seen : gset string) :
  documents (retrieve_loop results docs srcs seen) = docs ++ map fst results.
Proof.
  revert docs srcs seen.
  induction results as [|[doc sc] rest IH]; intros docs srcs seen.
  - cbn. now rewrite app_nil_r.
  - cbn [retrieve_loop map fst].
    destruct (decide (source_key (from_document doc sc) ∈ seen));
      rewrite IH, <- app_assoc; reflexivity.
Qed.

(** Every retrieved chunk, duplicates included, is in [documents], in rank
    order, and so in the context string. *)
Lemma retrieve_keeps_every_chunk {Score : Type} (self : DocumentRetriever Score)
    (query : string) (k : option Z) :
  let results :=
    similarity_search_with_score self query (or_default k (self_k self)) in
  documents (retrieve self query k) = map fst results
  /\ result_context (retrieve self query k) =
     String.concat CONTEXT_SEPARATOR (map (fun r => page_content (fst r)) results).
Proof.
  intros results. unfold result_context, retrieve. fold results.
  rewrite retrieve_loop_documents. cbn [app].
  now rewrite map_map.
Qed.

Lemma first_with_key_cons {Score : Type} (k : string) (doc : Document)
    (sc : Score) (rest : list (Document * Score)) :
  first_with_key k ((doc, sc) :: rest) =
  if decide (source_key (from_document doc sc) = k)
  then Some (from_document doc sc)
  else first_with_key k rest.
Proof.
  unfold first_with_key, citations. cbn [map]. rewrite filter_cons.
  destruct (decide (source_key (from_document doc sc) = k)); reflexivity.
Qed.

Lemma retrieve_loop_sources {Score : Type} (k : string)
    (results : list (Document * Score)) (docs : list Document)
    (srcs : list (SourceInfo Score)) (seen : gset string) :
  filter (fun s => source_key s = k)
    (sources (retrieve_loop results docs srcs seen)) =
  filter (fun s => source_key s = k) srcs ++
  (if decide (k ∈ seen) then [] else option_list (first_with_key k results)).
Proof.
  revert docs srcs seen.
  induction results as [|[doc sc] rest IH]; intros docs srcs seen.
  - cbn. destruct (decide (k ∈ seen)); now rewrite app_nil_r.
  - cbn [retrieve_loop]. rewrite first_with_key_cons.
    set (s := from_document doc sc).
    destruct (decide (source_key s ∈ seen)) as [Hin|Hnotin].
    + rewrite IH. destruct (decide (k ∈ seen)) as [|Hk]; [reflexivity|].
      rewrite decide_False; [reflexivity|]. intros Heq. apply Hk. now rewrite <- Heq.
    + rewrite IH, filter_app, filter_cons, filter_nil.
      destruct (decide (source_key s = k)) as [Heq|Hne].
      * subst k.
        rewrite decide_True
          by (apply elem_of_union; left; now apply elem_of_singleton).
        rewrite (decide_False (P := source_key s ∈ seen)) by exact Hnotin.
        now rewrite app_nil_r.
      * rewrite app_nil_r.
        destruct (decide (k ∈ seen)) as [Hk|Hk].
        -- rewrite decide_True by (apply elem_of_union; now right).
           reflexivity.
        -- rewrite decide_False; [reflexivity|].
           rewrite elem_of_union, elem_of_singleton.
           intros [Heq|Hin]; [now apply Hne | now apply Hk].
Qed.

(** What the deduplication of [retrieve] does: for every string [k], the
    source list holds exactly the citation of the first retrieved chunk whose
    formatted key is [k], if there is one. *)
Lemma retrieve_dedups_by_string_key {Score : Type}
    (self : DocumentRetriever Score) (query : string) (k : option Z)
    (key : string) :
  filter (fun s => source_key s = key) (sources (retrieve self query k)) =
  option_list
    (first_with_key key
       (similarity_search_with_score self query (or_default k (self_k self)))).
Proof.
  unfold retrieve. rewrite retrieve_loop_sources, filter_nil.
  rewrite decide_False by apply not_elem_of_empty. reflexivity.
Qed.

(** Chunks that share the tuple (filename, page, slide, sheet) never
    contribute more than one source. *)
Lemma retrieve_at_most_one_per_tuple {Score : Type}
    (self : DocumentRetriever Score) (query : string) (k : option Z)
    (t : string * option Z * option Z * option string) :
  (length (filter (fun s => source_tuple s = t) (sources (retrieve self query k)))
   <= 1)%nat.
Proof.
  pose proof (retrieve_dedups_by_string_key self query k (tuple_key t)) as Hkey.
  assert (Hlen : (length (filter (fun s => source_key s = tuple_key t)
                            (sources (retrieve self query k))) <= 1)%nat).
  { rewrite Hkey. destruct (first_with_key _ _); cbn; lia. }
  eapply Nat.le_trans; [|exact Hlen].
  generalize (sources (retrieve self query k)). intros l.
  induction l as [|s l IH]; [reflexivity|].
  rewrite !filter_cons.
  destruct (decide (source_tuple s = t)) as [Ht|Ht].
  - rewrite decide_True by (rewrite source_key_tuple, Ht; reflexivity).
    cbn [length]. lia.
  - destruct (decide (source_key s = tuple_key t)); cbn [length]; lia.
Qed.

Lemma filter_ext_elem {A : Type} (P Q : A -> Prop)
    `{!forall x, Decision (P x)} `{!forall x, Decision (Q x)} (l : list A) :
  (forall x, x ∈ l -> (P x <-> Q x)) -> filter P l = filter Q l.
Proof.
  induction l as [|x l IH]; intros Hext; [reflexivity|].
  rewrite !filter_cons.
  assert (Hx : P x <-> Q x) by (apply Hext; left).
  assert (Hl : filter P l = filter Q l)
    by (apply IH; intros y Hy; apply Hext; now right).
  destruct (decide (P x)) as [HP|HP], (decide (Q x)) as [HQ|HQ];
    rewrite ?Hl; try reflexivity; tauto.
Qed.

Lemma retrieve_sources_are_citations {Score : Type}
    (self : DocumentRetriever Score) (query : string) (k : option Z)
    (s : SourceInfo Score) :
  s ∈ sources (retrieve self query k) ->
  s ∈ citations
        (similarity_search_with_score self query (or_default k (self_k self))).
Proof.
  intros Hs.
  assert (Hin : s ∈ filter (fun s' => source_key s' = source_key s)
                      (sources (retrieve self query k)))
    by (apply list_elem_of_filter; split; [reflexivity | exact Hs]).
  rewrite retrieve_dedups_by_string_key in Hin.
  destruct (first_with_key _ _) as [s'|] eqn:Hfirst; cbn in Hin.
  - apply list_elem_of_singleton in Hin. subst s'.
    apply head_Some_elem_of, list_elem_of_filter in Hfirst. tauto.
  - inversion Hin.
Qed.

(** As long as no two retrieved chunks with different tuples format to the
    same string, the sources are deduplicated by the tuple: for every tuple
    the source list holds exactly the citation of the first retrieved chunk
    with that tuple, carrying that chunk's score. *)
Lemma retrieve_dedups_by_tuple_without_collision {Score : Type}
    (self : DocumentRetriever Score) (query : string) (k : option Z)
    (t : string * option Z * option Z * option string) :
  let results :=
    similarity_search_with_score self query (or_default k (self_k self)) in
  no_key_collision results ->
  filter (fun s => source_tuple s = t) (sources (retrieve self query k)) =
  option_list (first_with_tuple t results).
Proof.
  intros results Hinj.
  destruct (first_with_tuple t results) as [s0|] eqn:Hfirst.
  - pose proof Hfirst as Hs0.
    apply head_Some_elem_of, list_elem_of_filter in Hs0 as [Ht Hs0].
    assert (Hiff : forall s : SourceInfo Score, s ∈ citations results ->
              (source_tuple s = t <-> source_key s = source_key s0)).
    { intros s Hs. split.
      - intros Hst. now rewrite !source_key_tuple, Hst, Ht.
      - intros Hkey. rewrite <- Ht. now apply Hinj. }
    rewrite (filter_ext_elem _ (fun s => source_key s = source_key s0)).
    + rewrite retrieve_dedups_by_string_key. fold results.
      unfold first_with_key.
      rewrite (filter_ext_elem (fun s => source_key s = source_key s0)
                 (fun s => source_tuple s = t) (citations results))
        by (intros s Hs; symmetry; now apply Hiff).
      fold (first_with_tuple t results). now rewrite Hfirst.
    + intros s Hs. apply Hiff. now apply retrieve_sources_are_citations.
  - apply head_None in Hfirst. cbn [option_list].
    destruct (filter _ (sources _)) as [|s l] eqn:Hfilter; [reflexivity|].
    assert (Hs : s ∈ filter (fun s => source_tuple s = t)
                       (sources (retrieve self query k)))
      by (rewrite Hfilter; left).
    apply list_elem_of_filter in Hs as [Ht Hs].
    apply retrieve_sources_are_citations in Hs. fold results in Hs.
    assert (Hin : s ∈ filter (fun s => source_tuple s = t) (citations results))
      by (apply list_elem_of_filter; split; assumption).
    rewrite Hfirst in Hin. inversion Hin.
Qed.

(** C2 at a failing input. The sheet of [x.xlsx] is ranked first; the two
    chunks of the text file, ranked second and third, share a tuple that
    differs from the sheet's, yet format to the same string key. All three
    chunks are in [documents], but the only source is the sheet's: no
    source is kept for the tuple the two text chunks share, and the score
    0.2 of the first of them appears nowhere. *)
Theorem retrieve_key_collision :
  let self := new_retriever default_settings (fun _ _ => colliding_results) None in
  let r := retrieve self "budget" None in
  let t := source_tuple (from_document text_chunk_1 (2 # 10)%Q) in
  source_tuple (from_document text_chunk_2 (3 # 10)%Q) = t
  /\ source_tuple (from_document sheet_chunk (1 # 10)%Q) <> t
  /\ documents r = [sheet_chunk; text_chunk_1; text_chunk_2]
  /\ sources r = [from_document sheet_chunk (1 # 10)%Q]
  /\ filter (fun s => source_tuple s = t) (sources r) = [].
Proof.
  cbv zeta.
  split; [reflexivity|].
  split; [discriminate|].
  split; [vm_compute; reflexivity|].
  split; vm_compute; reflexivity.
Qed.

(** ** loaders.py: load_directory *)

Lemma load_directory_listing (dir : string) (files : list FileEntry) :
  load_directory dir (Some files) =
  {| yielded := fst (load_files files); printed := snd (load_files files);
     raised := None |}.
Proof. unfold load_directory. now destruct (load_files files). Qed.

Lemma load_files_flat (files : list FileEntry) :
  load_files files = (flat_map file_documents files, flat_map file_errors files).
Proof.
  induction files as [|f files IH]; [reflexivity|].
  cbn [load_files flat_map]. rewrite IH.
  unfold file_documents, file_errors, load_document.
  destruct (is_file f), (supported (lower (suffix f))); cbn [andb];
    try reflexivity.
  destruct (parsed f); reflexivity.
Qed.

Lemma failed_file_contributes (f : FileEntry) (msg : string) :
  fails_to_load f msg ->
  file_documents f = []
  /\ file_errors f = ["Error loading " +:+ file_path f +:+ ": " +:+ msg].
Proof.
  intros (Hfile & Hext & Hparsed). unfold file_documents, file_errors.
  now rewrite Hfile, Hext, Hparsed.
Qed.

(** [load_directory] goes on after a file that fails to load: it prints the
    error and yields the documents of all the other files, in their order. *)
Lemma load_directory_skips (dir : string) (before after : list FileEntry)
    (f : FileEntry) (msg : string) :
  fails_to_load f msg ->
  load_directory dir (Some (before ++ f :: after)) =
  {| yielded := flat_map file_documents (before ++ after);
     printed := flat_map file_errors before ++
                ("Error loading " +:+ file_path f +:+ ": " +:+ msg)
                :: flat_map file_errors after;
     raised := None |}.
Proof.
  intros Hf. destruct (failed_file_contributes f msg Hf) as [Hdocs Hline].
  rewrite load_directory_listing, load_files_flat. cbn [fst snd].
  rewrite !flat_map_app. cbn [flat_map]. now rewrite Hdocs, Hline.
Qed.

Lemma load_directory_yields_no_error (directory : string)
    (listing : option (list FileEntry)) :
  yielded (load_directory directory listing) <> [] ->
  load_errors (load_directory directory listing) = [].
Proof.
  destruct listing as [files|]; cbn; [|congruence].
  intros _. now destruct (load_files files).
Qed.

(** ** indexer.py *)

Lemma new_calls_app (st : IndexerState) (open : bool) (added : list StoreCall) :
  new_calls st {| store_open := open; calls := calls st ++ added |} = added.
Proof. unfold new_calls. cbn [calls]. now rewrite drop_app_length. Qed.

(** [clear_index] spelled out. *)
Lemma clear_index_run (b : StoreBehaviour) (st : IndexerState) :
  let deleted := if store_open st then [DeleteCollection] else [] in
  Indexer.clear_index b st =
  match create_error b (calls st ++ deleted) with
  | Some e => (inr e, {| store_open := false;
                         calls := calls st ++ deleted ++ [CreateStore] |})
  | None => (inl tt, {| store_open := true;
                        calls := calls st ++ deleted ++ [CreateStore] |})
  end.
Proof.
  unfold Indexer.clear_index, Indexer.bind, Indexer.try_except,
    Indexer.delete_collection, Indexer.vector_store, Indexer.ret.
  destruct st as [[|] cs]; cbn [store_open calls].
  - destruct (delete_error b cs); cbn [store_open calls];
      destruct (create_error b (cs ++ [DeleteCollection]));
      now rewrite <- app_assoc.
  - rewrite !app_nil_r. now destruct (create_error b cs).
Qed.

(** [self.vector_store.add_documents(chunks)] spelled out. *)
Lemma add_documents_run (b : StoreBehaviour) (chunks : list Document)
    (st : IndexerState) :
  let verdict history :=
    match add_error b history chunks with
    | Some e => inr e
    | None => inl tt
    end in
  Indexer.add_documents b chunks st =
  if store_open st
  then (verdict (calls st),
        {| store_open := true; calls := calls st ++ [AddDocuments chunks] |})
  else
    match create_error b (calls st) with
    | Some e => (inr e, {| store_open := false;
                           calls := calls st ++ [CreateStore] |})
    | None => (verdict (calls st ++ [CreateStore]),
               {| store_open := true;
                  calls := calls st ++ [CreateStore; AddDocuments chunks] |})
    end.
Proof.
  unfold Indexer.add_documents, Indexer.bind, Indexer.vector_store.
  destruct st as [[|] cs]; cbn [store_open calls].
  - now destruct (add_error b cs chunks).
  - destruct (create_error b cs) as [e|]; cbn [store_open calls];
      [reflexivity|].
    rewrite <- app_assoc. now destruct (add_error b (cs ++ [CreateStore]) chunks).
Qed.

(** When [add_documents] returns, the chunks were the last thing handed to
    the store. *)
Lemma add_documents_returns (b : StoreBehaviour) (chunks : list Document)
    (st st' : IndexerState) (u : unit) :
  Indexer.add_documents b chunks st = (inl u, st') ->
  last (calls st') = Some (AddDocuments chunks).
Proof.
  rewrite add_documents_run. cbv zeta. destruct (store_open st).
  - intros [= _ <-]. cbn [calls]. apply last_snoc.
  - destruct (create_error b (calls st)); [discriminate|].
    intros [= _ <-]. cbn [calls].
    change [CreateStore; AddDocuments chunks]
      with ([CreateStore] ++ [AddDocuments chunks]).
    rewrite app_assoc. apply last_snoc.
Qed.

(** [index_documents] spelled out, over any run of the generator: the store
    is used after the clearing only when there are chunks to add. *)
Lemma index_run_spelled (b : StoreBehaviour)
    (splitter : list Document -> list Document) (run : LoadRun)
    (clear_existing : bool) (st : IndexerState) :
  let chunks := splitter (yielded run) in
  let cleared :=
    if clear_existing then Indexer.clear_index b st else (inl tt, st) in
  Indexer.index_run b splitter run clear_existing st =
  match fst cleared with
  | inr e => (inr e, snd cleared)
  | inl _ =>
      match yielded run with
      | [] =>
          (inl {| indexed_count := 0; chunk_count := 0;
                  errors := match load_errors run with
                            | [] => ["No documents found"]
                            | _ :: _ => load_errors run
                            end |},
           snd cleared)
      | _ :: _ =>
          match chunks with
          | [] =>
              (inl {| indexed_count := Z.of_nat (length (yielded run));
                      chunk_count := 0;
                      errors := ["No chunks generated after splitting"] |},
               snd cleared)
          | _ :: _ =>
              match Indexer.add_documents b chunks (snd cleared) with
              | (inl _, st') =>
                  (inl {| indexed_count := Z.of_nat (length (yielded run));
                          chunk_count := Z.of_nat (length chunks);
                          errors := load_errors run |}, st')
              | (inr e, st') =>
                  (inl {| indexed_count := 0; chunk_count := 0;
                          errors := load_errors run ++
                            ["Error adding to vector store: " +:+ e] |}, st')
              end
          end
      end
  end.
Proof.
  intros chunks cleared. subst chunks cleared.
  unfold Indexer.index_run, Indexer.bind at 1.
  assert (Hcleared : (if clear_existing then Indexer.clear_index b
                      else Indexer.ret tt) st
                     = if clear_existing then Indexer.clear_index b st
                       else (inl tt, st)) by now destruct clear_existing.
  rewrite Hcleared.
  destruct (if clear_existing then Indexer.clear_index b st else (inl tt, st))
    as [[[]|e] st1]; cbn [fst snd]; [|reflexivity].
  destruct (yielded run) as [|doc docs]; [reflexivity|].
  destruct (splitter (doc :: docs)) as [|chunk chunks]; [reflexivity|].
  unfold Indexer.try_except, Indexer.bind at 1.
  now destruct (Indexer.add_documents b (chunk :: chunks) st1) as [[[]|e] st'].
Qed.

(** The outcome depends on the run of the generator through the documents
    it yields and the exception it raises only: what it prints is lost. *)
Lemma index_run_same_load (b : StoreBehaviour)
    (splitter : list Document -> list Document) (run run' : LoadRun)
    (clear_existing : bool) :
  yielded run = yielded run' -> raised run = raised run' ->
  Indexer.index_run b splitter run clear_existing
  = Indexer.index_run b splitter run' clear_existing.
Proof.
  intros Hyielded Hraised. unfold Indexer.index_run, load_errors.
  now rewrite Hyielded, Hraised.
Qed.

(** C5, as the code has it. When the load phase yields no document,
    [index_documents] returns at once with zero counts and a one-element
    [errors] list: ["No documents found"] when the load raised nothing, and
    the load error when [load_directory] raised (the directory does not
    exist). Nothing is split or added: the only calls on the store are those
    of the clearing that [clear_existing] asks for, and when the clearing
    cannot create the store handle again its exception is raised instead. *)
Theorem index_documents_no_documents (b : StoreBehaviour)
    (fs : string -> option (list FileEntry))
    (splitter : list Document -> list Document) (rag_settings : RAGSettings)
    (docs_dir_arg : option string) (clear_existing : bool) (st : IndexerState) :
  let dir := default (docs_dir rag_settings) docs_dir_arg in
  let run := load_directory dir (fs dir) in
  let nothing_found :=
    {| indexed_count := 0; chunk_count := 0;
       errors := match raised run with
                 | None => ["No documents found"]
                 | Some e => ["Error loading documents: " +:+ e]
                 end |} in
  let deleted := if store_open st then [DeleteCollection] else [] in
  yielded run = [] ->
  Indexer.index_documents b fs splitter rag_settings docs_dir_arg
    clear_existing st =
  if clear_existing
  then
    match create_error b (calls st ++ deleted) with
    | Some e =>
        (inr e, {| store_open := false;
                   calls := calls st ++ deleted ++ [CreateStore] |})
    | None =>
        (inl nothing_found,
         {| store_open := true;
            calls := calls st ++ deleted ++ [CreateStore] |})
    end
  else (inl nothing_found, st).
Proof.
  intros dir run nothing_found deleted Hnone. subst nothing_found.
  unfold Indexer.index_documents. cbv zeta. fold dir. fold run.
  rewrite index_run_spelled. cbv zeta. rewrite Hnone. unfold load_errors.
  destruct clear_existing.
  - rewrite clear_index_run. cbv zeta. fold deleted.
    destruct (create_error b (calls st ++ deleted)); cbn [fst snd];
      [reflexivity|].
    now destruct (raised run).
  - cbn [fst snd]. now destruct (raised run).
Qed.

Lemma index_documents_no_documents_witness :
  Indexer.index_documents (healthy_store 0) (fun _ => Some []) whole_documents
    default_settings (Some "docs") true fresh_indexer
  = (inl {| indexed_count := 0; chunk_count := 0;
            errors := ["No documents found"] |},
     {| store_open := true; calls := [CreateStore] |}).
Proof.
  apply (index_documents_no_documents (healthy_store 0) (fun _ => Some [])
           whole_documents default_settings (Some "docs") true fresh_indexer).
  reflexivity.
Defined.

(** C5, as claimed, fails: on a directory that does not exist the load phase
    yields no document, yet [errors] is not ["No documents found"]. *)
Lemma index_documents_missing_directory :
  let out :=
    Indexer.index_documents (healthy_store 0) (fun _ => None) whole_documents
      default_settings (Some "missing") false fresh_indexer in
  yielded (load_directory "missing" None) = []
  /\ out = (inl {| indexed_count := 0; chunk_count := 0;
                   errors := ["Error loading documents: " +:+
                              "Directory does not exist: missing"] |},
            fresh_indexer)
  /\ forall r, fst out = inl r -> errors r <> ["No documents found"].
Proof.
  cbv zeta. split; [reflexivity|]. split; [reflexivity|].
  intros r [= <-]. vm_compute. discriminate.
Qed.

(** C6, as the code has it. A file that fails to load is skipped: its error
    is printed, the generator goes on and yields the documents of the other
    files in order, and [index_documents] behaves as it would without that
    file in the directory: same outcome, same calls on the store. The line
    printed for the file is not in the returned [errors]; and a result
    without errors credits exactly the documents of the other files, whose
    chunks were the last thing handed to the store. *)
Theorem failed_file_is_skipped (b : StoreBehaviour)
    (splitter : list Document -> list Document) (rag_settings : RAGSettings)
    (docs_dir_arg : option string) (clear_existing : bool) (st : IndexerState)
    (before after : list FileEntry) (f : FileEntry) (msg : string) :
  let dir := default (docs_dir rag_settings) docs_dir_arg in
  let run := load_directory dir (Some (before ++ f :: after)) in
  let docs := flat_map file_documents (before ++ after) in
  let line := "Error loading " +:+ file_path f +:+ ": " +:+ msg in
  let with_f :=
    Indexer.index_documents b (fun _ => Some (before ++ f :: after)) splitter
      rag_settings docs_dir_arg clear_existing st in
  let without_f :=
    Indexer.index_documents b (fun _ => Some (before ++ after)) splitter
      rag_settings docs_dir_arg clear_existing st in
  fails_to_load f msg ->
  yielded run = docs
  /\ printed run = flat_map file_errors before ++ line :: flat_map file_errors after
  /\ raised run = None
  /\ with_f = without_f
  /\ (forall r, fst with_f = inl r -> line ∉ errors r)
  /\ (forall r, fst with_f = inl r -> errors r = [] ->
        indexed_count r = Z.of_nat (length docs)
        /\ chunk_count r = Z.of_nat (length (splitter docs))
        /\ last (calls (snd with_f)) = Some (AddDocuments (splitter docs))).
Proof.
  intros dir run docs line with_f without_f Hf.
  pose proof (load_directory_skips dir before after f msg Hf) as Hskip.
  fold run docs line in Hskip.
  split; [now rewrite Hskip|]. split; [now rewrite Hskip|].
  split; [now rewrite Hskip|].
  assert (Hwith : with_f
                  = Indexer.index_run b splitter run clear_existing st)
    by reflexivity.
  split.
  { rewrite Hwith. subst without_f. unfold Indexer.index_documents.
    cbv zeta. fold dir.
    rewrite (index_run_same_load b splitter run
               (load_directory dir (Some (before ++ after))));
      [reflexivity | |].
    - rewrite Hskip, load_directory_listing, load_files_flat. reflexivity.
    - rewrite Hskip, load_directory_listing. reflexivity. }
  assert (Hspelled := index_run_spelled b splitter run clear_existing st).
  cbv zeta in Hspelled. rewrite <- Hwith in Hspelled.
  assert (Herrors : load_errors run = [])
    by (unfold load_errors; now rewrite Hskip).
  assert (Hyielded : yielded run = docs) by now rewrite Hskip.
  rewrite Herrors, Hyielded in Hspelled. clear Hwith.
  destruct (fst (if clear_existing then Indexer.clear_index b st
                 else (inl tt, st))) as [[]|e0].
  2: { rewrite Hspelled. split; intros r [=]. }
  destruct docs as [|doc docs'].
  { rewrite Hspelled. cbn [fst]. split.
    - intros r [= <-]. cbn [errors]. rewrite elem_of_cons, elem_of_nil.
      intros [H|[]]. discriminate H.
    - intros r [= <-]. cbn [errors]. discriminate. }
  destruct (splitter (doc :: docs')) as [|chunk chunks] eqn:Hsplit.
  { rewrite Hspelled. cbn [fst]. split.
    - intros r [= <-]. cbn [errors]. rewrite elem_of_cons, elem_of_nil.
      intros [H|[]]. discriminate H.
    - intros r [= <-]. cbn [errors]. discriminate. }
  destruct (Indexer.add_documents b (chunk :: chunks) _)
    as [[u|e] st'] eqn:Hadd; rewrite Hspelled; cbn [fst snd]; split.
  - intros r [= <-]. cbn [errors]. apply not_elem_of_nil.
  - intros r [= <-] _. cbn [indexed_count chunk_count].
    split; [reflexivity|]. split; [reflexivity|].
    eapply add_documents_returns. exact Hadd.
  - intros r [= <-]. cbn [errors app]. rewrite elem_of_cons, elem_of_nil.
    intros [H|[]]. discriminate H.
  - intros r [= <-]. cbn [errors app]. discriminate.
Qed.

Lemma failed_file_is_skipped_witness :
  let listing := [corrupt_pdf "bad.pdf"; txt_file "a.txt" "Hello world."] in
  let doc := {| page_content := "Hello world.";
                metadata := plain_metadata "a.txt" |} in
  let line := "Error loading docs/bad.pdf: EOF marker not found" in
  let with_f :=
    Indexer.index_documents (healthy_store 0) (fun _ => Some ([] ++ listing))
      whole_documents default_settings (Some "docs") false fresh_indexer in
  yielded (load_directory "docs" (Some ([] ++ listing))) = [doc]
  /\ printed (load_directory "docs" (Some ([] ++ listing))) = [line]
  /\ raised (load_directory "docs" (Some ([] ++ listing))) = None
  /\ (inl {| indexed_count := 1; chunk_count := 1; errors := [] |},
      {| store_open := true; calls := [CreateStore; AddDocuments [doc]] |})
     = Indexer.index_documents (healthy_store 0)
         (fun _ => Some ([] ++ [txt_file "a.txt" "Hello world."]))
         whole_documents default_settings (Some "docs") false fresh_indexer
  /\ (forall r, fst with_f = inl r -> line ∉ errors r)
  /\ (forall r, fst with_f = inl r -> errors r = [] ->
        indexed_count r = 1 /\ chunk_count r = 1
        /\ last (calls (snd with_f)) = Some (AddDocuments [doc])).
Proof.
  apply (failed_file_is_skipped (healthy_store 0) whole_documents
           default_settings (Some "docs") false fresh_indexer
           [] [txt_file "a.txt" "Hello world."]
           (corrupt_pdf "bad.pdf") "EOF marker not found").
  repeat split; reflexivity.
Defined.

(** C6, as claimed, fails: with one corrupt PDF next to a readable text file
    the run goes on and indexes the text file, but the returned [errors]
    list is empty: the failure of the PDF is only printed. *)
Lemma failed_file_not_in_errors :
  let listing := [corrupt_pdf "bad.pdf"; txt_file "a.txt" "Hello world."] in
  let out :=
    Indexer.index_documents (healthy_store 0) (fun _ => Some listing)
      whole_documents default_settings (Some "docs") false fresh_indexer in
  fails_to_load (corrupt_pdf "bad.pdf") "EOF marker not found"
  /\ fst out = inl {| indexed_count := 1; chunk_count := 1; errors := [] |}
  /\ printed (load_directory "docs" (Some listing))
     = ["Error loading docs/bad.pdf: EOF marker not found"]
  /\ ~ (exists r e, fst out = inl r /\ e ∈ errors r).
Proof.
  cbv zeta. split; [repeat split; reflexivity|].
  split; [reflexivity|]. split; [reflexivity|].
  intros (r & e & [= <-] & He). vm_compute in He. inversion He.
Qed.

(** C7. When the call that adds the chunks to the store raises (be it
    [add_documents] or the creation of the store handle it needs),
    [index_documents] returns zero for both counts and appends the message
    to the errors list of the load phase, whatever the run of the generator
    was; the exception is not raised. For the runs of [load_directory], which
    yield a document only when they do not raise, the message is the only
    entry. *)
Theorem add_failure_returns_zero_counts (b : StoreBehaviour)
    (splitter : list Document -> list Document) (run : LoadRun)
    (clear_existing : bool) (st st1 st2 : IndexerState) (e : string) :
  let chunks := splitter (yielded run) in
  (if clear_existing then Indexer.clear_index b else Indexer.ret tt) st
    = (inl tt, st1) ->
  yielded run <> [] ->
  chunks <> [] ->
  Indexer.add_documents b chunks st1 = (inr e, st2) ->
  Indexer.index_run b splitter run clear_existing st
  = (inl {| indexed_count := 0; chunk_count := 0;
            errors := match raised run with
                      | Some l => ["Error loading documents: " +:+ l]
                      | None => []
                      end ++ ["Error adding to vector store: " +:+ e] |},
     st2)
  /\ forall (fs : string -> option (list FileEntry))
            (rag_settings : RAGSettings) (docs_dir_arg : option string),
       load_directory (default (docs_dir rag_settings) docs_dir_arg)
         (fs (default (docs_dir rag_settings) docs_dir_arg)) = run ->
       Indexer.index_documents b fs splitter rag_settings docs_dir_arg
         clear_existing st
       = (inl {| indexed_count := 0; chunk_count := 0;
                 errors := ["Error adding to vector store: " +:+ e] |},
          st2).
Proof.
  intros chunks Hclear Hdocs Hchunks Hadd.
  assert (Hrun : Indexer.index_run b splitter run clear_existing st
                 = (inl {| indexed_count := 0; chunk_count := 0;
                           errors := load_errors run ++
                             ["Error adding to vector store: " +:+ e] |},
                    st2)).
  { rewrite index_run_spelled. cbv zeta.
    replace (if clear_existing then Indexer.clear_index b st else (inl tt, st))
      with (inl (B := string) tt, st1)
      by (rewrite <- Hclear; now destruct clear_existing).
    cbn [fst snd]. fold chunks.
    destruct (yielded run) as [|doc docs]; [contradiction|].
    destruct chunks as [|chunk chunks']; [contradiction|].
    now rewrite Hadd. }
  split; [exact Hrun|].
  intros fs rag_settings docs_dir_arg Hload.
  unfold Indexer.index_documents. cbv zeta. rewrite Hload, Hrun.
  rewrite <- Hload, load_directory_yields_no_error; [reflexivity|].
  now rewrite Hload.
Qed.

Lemma add_failure_returns_zero_counts_witness :
  let doc := {| page_content := "Hello world.";
                metadata := plain_metadata "a.txt" |} in
  let interrupted := {| yielded := [doc]; printed := [];
                        raised := Some "Permission denied" |} in
  let after_add :=
    {| store_open := true; calls := [CreateStore; AddDocuments [doc]] |} in
  Indexer.index_run (rejecting_store "Store error") whole_documents
    interrupted true fresh_indexer
  = (inl {| indexed_count := 0; chunk_count := 0;
            errors := ["Error loading documents: Permission denied";
                       "Error adding to vector store: Store error"] |},
     after_add)
  /\ Indexer.index_documents (rejecting_store "Store error")
       (fun _ => Some [txt_file "a.txt" "Hello world."]) whole_documents
       default_settings (Some "docs") true fresh_indexer
     = (inl {| indexed_count := 0; chunk_count := 0;
               errors := ["Error adding to vector store: Store error"] |},
        after_add).
Proof.
  intros doc interrupted after_add. split.
  - apply (add_failure_returns_zero_counts (rejecting_store "Store error")
             whole_documents interrupted true fresh_indexer
             {| store_open := true; calls := [CreateStore] |} after_add
             "Store error");
      [reflexivity | discriminate | discriminate | reflexivity].
  - apply (add_failure_returns_zero_counts (rejecting_store "Store error")
             whole_documents
             (load_directory "docs" (Some [txt_file "a.txt" "Hello world."]))
             true fresh_indexer
             {| store_open := true; calls := [CreateStore] |} after_add
             "Store error");
      [reflexivity | discriminate | discriminate | reflexivity | reflexivity].
Defined.

(** ** splitter.py *)

Lemma or_default_explicit (v d : Z) : v <> 0 -> or_default (Some v) d = v.
Proof.
  intros Hv. unfold or_default.
  destruct (Z.eqb_spec v 0) as [H0|_]; [contradiction | reflexivity].
Qed.

(** A request for size 0 and overlap 0 builds the default splitter. *)
Lemma create_text_splitter_zero
    (constructor : SplitterConfig -> SplitterConfig + string)
    (rag_settings : RAGSettings) :
  create_text_splitter constructor rag_settings (Some 0) (Some 0)
  = text_splitter constructor rag_settings.
Proof. reflexivity. Qed.

Lemma rejecting_constructor_rejects : rejects_large_overlap rejecting_constructor.
Proof.
  intros c Hc. unfold rejecting_constructor.
  destruct (Z.leb_spec (sp_chunk_size c) (sp_chunk_overlap c)) as [_|Hlt];
    [eauto | lia].
Qed.

(** C8, as the code has it. [create_text_splitter] does not validate the
    pair itself: it hands explicit non-zero values unchanged, with the
    Japanese separators, to the constructor of the splitter class. So, over
    a constructor that rejects every pair with overlap >= size, an explicit
    non-zero pair with overlap >= size is rejected with that constructor's
    error, and is neither accepted nor clamped. *)
Theorem create_text_splitter_rejects_explicit_pair
    (constructor : SplitterConfig -> SplitterConfig + string)
    (rag_settings : RAGSettings) (size overlap : Z) :
  rejects_large_overlap constructor ->
  size <> 0 -> overlap <> 0 -> overlap >= size ->
  create_text_splitter constructor rag_settings (Some size) (Some overlap)
  = constructor {| sp_chunk_size := size; sp_chunk_overlap := overlap;
                   sp_separators := JAPANESE_SEPARATORS |}
  /\ exists msg,
       create_text_splitter constructor rag_settings (Some size) (Some overlap)
       = inr msg.
Proof.
  intros Hpolicy Hsize Hoverlap Hlarge.
  assert (Hcall : create_text_splitter constructor rag_settings (Some size)
                    (Some overlap)
                  = constructor {| sp_chunk_size := size;
                                   sp_chunk_overlap := overlap;
                                   sp_separators := JAPANESE_SEPARATORS |})
    by (unfold create_text_splitter; now rewrite !or_default_explicit).
  split; [exact Hcall|]. rewrite Hcall. now apply Hpolicy.
Qed.

Lemma create_text_splitter_rejects_explicit_pair_witness :
  create_text_splitter rejecting_constructor default_settings (Some 100) (Some 100)
  = inr "chunk_overlap must be smaller than chunk_size"
  /\ exists msg,
       create_text_splitter rejecting_constructor default_settings (Some 100)
         (Some 100) = inr msg.
Proof.
  apply (create_text_splitter_rejects_explicit_pair rejecting_constructor
           default_settings 100 100).
  - exact rejecting_constructor_rejects.
  - lia.
  - lia.
  - lia.
Defined.

(** C8, as claimed, fails: even over a constructor that rejects every pair
    with overlap >= size, the request for size 0 and overlap 0 is accepted,
    and yields the default splitter of size 1000 and overlap 200. *)
Lemma create_text_splitter_accepts_zero_pair :
  0 >= 0
  /\ create_text_splitter rejecting_constructor default_settings (Some 0) (Some 0)
     = inl {| sp_chunk_size := 1000; sp_chunk_overlap := 200;
              sp_separators := JAPANESE_SEPARATORS |}.
Proof. split; [lia | reflexivity]. Qed.

(* ================================================================== *)
(** * Further properties of the code *)

(** ** retriever.py: the source list *)

(** The loop invariant of [retrieve]: when [seen_sources] holds the keys of
    the sources collected so far, the loop appends to them a subsequence of
    the citations of the remaining results, with fresh and pairwise distinct
    keys. *)
Lemma retrieve_loop_appends {Score : Type} (results : list (Document * Score))
    (docs : list Document) (srcs : list (SourceInfo Score)) (seen : gset string) :
  (forall s, s ∈ srcs -> source_key s ∈ seen) ->
  NoDup (map source_key srcs) ->
  exists new,
    sources (retrieve_loop results docs srcs seen) = srcs ++ new
    /\ new `sublist_of` citations results
    /\ NoDup (map source_key (srcs ++ new))
    /\ (forall s, s ∈ new -> source_key s ∉ seen).
Proof.
  revert docs srcs seen.
  induction results as [|[doc sc] rest IH]; intros docs srcs seen Hseen Hnodup.
  - exists []. cbn [retrieve_loop sources]. rewrite app_nil_r.
    split; [reflexivity|]. split; [apply sublist_nil|]. split; [exact Hnodup|].
    intros s Hs. inversion Hs.
  - cbn [retrieve_loop]. set (s := from_document doc sc).
    destruct (decide (source_key s ∈ seen)) as [Hin|Hnotin].
    + destruct (IH (docs ++ [doc]) srcs seen Hseen Hnodup)
        as (new & Hsrc & Hsub & Hnd & Hfresh).
      exists new. repeat split; auto.
      unfold citations. cbn [map]. now apply sublist_cons.
    + destruct (IH (docs ++ [doc]) (srcs ++ [s]) ({[source_key s]} ∪ seen))
        as (new & Hsrc & Hsub & Hnd & Hfresh).
      * intros s' Hs'. apply elem_of_app in Hs' as [Hs'|Hs'].
        -- apply elem_of_union. right. now apply Hseen.
        -- apply list_elem_of_singleton in Hs'. subst s'.
           apply elem_of_union. left. now apply elem_of_singleton.
      * rewrite map_app. cbn [map]. apply NoDup_app. repeat split; auto.
        -- intros key Hkey Hkey'. apply list_elem_of_singleton in Hkey'. subst key.
           apply list_elem_of_In, in_map_iff in Hkey as (s' & Heq & Hs').
           apply Hnotin. rewrite <- Heq. apply Hseen. now apply list_elem_of_In.
        -- apply NoDup_singleton.
      * exists (s :: new). rewrite Hsrc, <- app_assoc. repeat split; auto.
        -- unfold citations. cbn [map]. now apply sublist_skip.
        -- now rewrite <- app_assoc in Hnd.
        -- intros s' Hs'. apply elem_of_cons in Hs' as [->|Hs']; [exact Hnotin|].
           intros Hin. apply (Hfresh s' Hs'). apply elem_of_union. now right.
Qed.

Lemma retrieve_sources_invariant {Score : Type} (self : DocumentRetriever Score)
    (query : string) (k : option Z) :
  sources (retrieve self query k) `sublist_of`
    citations (similarity_search_with_score self query (or_default k (self_k self)))
  /\ NoDup (map source_key (sources (retrieve self query k))).
Proof.
  unfold retrieve.
  destruct (retrieve_loop_appends
              (similarity_search_with_score self query (or_default k (self_k self)))
              [] [] ∅) as (new & Hsrc & Hsub & Hnd & _).
  - intros s Hs. inversion Hs.
  - constructor.
  - rewrite Hsrc. cbn [app] in *. now split.
Qed.

(** X1. The source list of [retrieve] is a subsequence of the citations of
    the retrieved chunks: every source is the citation of a retrieved chunk,
    the sources keep the rank order of the chunks, and there are never more
    sources than documents. *)
Theorem retrieve_sources_in_rank_order {Score : Type}
    (self : DocumentRetriever Score) (query : string) (k : option Z) :
  let r := retrieve self query k in
  sources r `sublist_of` map (fun doc_sc => from_document (fst doc_sc) (snd doc_sc))
    (similarity_search_with_score self query (or_default k (self_k self)))
  /\ (length (sources r) <= length (documents r))%nat.
Proof.
  intros r.
  destruct (retrieve_sources_invariant self query k) as [Hsub _].
  assert (Hcit : forall results : list (Document * Score),
            citations results =
            map (fun doc_sc => from_document (fst doc_sc) (snd doc_sc)) results).
  { intros results. unfold citations. apply map_ext. now intros [doc sc]. }
  rewrite <- Hcit. split; [exact Hsub|].
  apply sublist_length in Hsub. unfold citations in Hsub.
  rewrite length_map in Hsub.
  destruct (retrieve_keeps_every_chunk self query k) as [Hdocs _].
  subst r. rewrite Hdocs, length_map. exact Hsub.
Qed.

(** X2. No two sources returned by [retrieve] have the same formatted key
    [filename:page:slide:sheet], and so no two of them have the same tuple
    (filename, page, slide, sheet). *)
Theorem retrieve_source_keys_distinct {Score : Type}
    (self : DocumentRetriever Score) (query : string) (k : option Z) :
  NoDup (map source_key (sources (retrieve self query k)))
  /\ NoDup (map source_tuple (sources (retrieve self query k))).
Proof.
  destruct (retrieve_sources_invariant self query k) as [_ Hkeys].
  split; [exact Hkeys|].
  apply (NoDup_fmap_1 tuple_key).
  rewrite <- list_fmap_compose.
  erewrite list_fmap_ext; [exact Hkeys|].
  intros i s _. symmetry. apply source_key_tuple.
Qed.

(** X3. Every retrieved chunk is represented in the source list: for each
    chunk there is a source with the chunk's formatted key, and the
    top-ranked chunk's own citation, with its score, is the first source. *)
Theorem retrieve_sources_cover_chunks {Score : Type}
    (self : DocumentRetriever Score) (query : string) (k : option Z) :
  let results :=
    similarity_search_with_score self query (or_default k (self_k self)) in
  let r := retrieve self query k in
  Forall (fun doc_sc =>
            exists s, s ∈ sources r /\
                      source_key s = source_key (from_document (fst doc_sc) (snd doc_sc)))
         results
  /\ head (sources r) =
     head (map (fun doc_sc => from_document (fst doc_sc) (snd doc_sc)) results).
Proof.
  intros results r. split.
  - apply Forall_forall. intros [doc sc] Hin. cbn [fst snd].
    set (c := from_document doc sc).
    pose proof (retrieve_dedups_by_string_key self query k (source_key c)) as Hkey.
    fold results in Hkey.
    assert (Hc : c ∈ filter (fun s => source_key s = source_key c) (citations results)).
    { apply list_elem_of_filter. split; [reflexivity|].
      unfold citations. apply list_elem_of_In, in_map_iff.
      exists (doc, sc). split; [reflexivity | now apply list_elem_of_In]. }
    unfold first_with_key in Hkey.
    destruct (filter _ (citations results)) as [|s0 l] eqn:Hfilter;
      [inversion Hc|].
    cbn [head option_list] in Hkey.
    assert (Hs0 : s0 ∈ filter (fun s => source_key s = source_key c) (sources r))
      by (subst r; rewrite Hkey; left).
    apply list_elem_of_filter in Hs0 as [Hk Hs0]. now exists s0.
  - subst r. unfold retrieve. fold results.
    destruct results as [|[doc sc] rest]; [reflexivity|].
    cbn [retrieve_loop map head fst snd].
    rewrite decide_False by apply not_elem_of_empty.
    destruct (retrieve_loop_appends rest ([] ++ [doc]) ([] ++ [from_document doc sc])
                ({[source_key (from_document doc sc)]} ∪ ∅))
      as (new & Hsrc & _).
    + intros s Hs. apply list_elem_of_singleton in Hs. subst s.
      apply elem_of_union. left. now apply elem_of_singleton.
    + apply NoDup_singleton.
    + rewrite Hsrc. reflexivity.
Qed.

(** ** nodes/generate.py and chain.py: the shape of the stream *)

Lemma prefix_chain_last (l : list string) (x : string) :
  prefix_chain (l ++ [x]) -> Forall (fun t => is_prefix t x) l.
Proof.
  induction l as [|t l IH]; intros Hchain; [constructor|].
  cbn [app prefix_chain] in Hchain. destruct Hchain as [Hall Hchain].
  constructor; [|now apply IH].
  apply Forall_app in Hall as [_ Hx]. now inversion Hx.
Qed.

Lemma done_responses_stream_rag {Score : Type} (env : Env Score) (query : string)
    (chat_history : option (list ChatTurn)) :
  done_responses (stream_rag env query chat_history) =
  [String.concat "" (deltas (astream (get_default_llm env true)
                               (prompt_of env query chat_history)))].
Proof.
  rewrite stream_rag_events. unfold done_responses. rewrite !omap_app.
  replace (omap _ (map (fun text => ChunkEvent text true) _)) with (@nil string);
    [reflexivity|].
  generalize (running "" (deltas (astream (get_default_llm env true)
                                    (prompt_of env query chat_history)))).
  intros texts. induction texts as [|t texts IH]; [reflexivity | exact IH].
Qed.

(** X4. Whatever the backend does, the events of [stream_rag] come in this
    order: the sources event; chunk events flagged [is_streaming = true],
    each carrying a prefix of the final response; one chunk event flagged
    [is_streaming = false] with the final response; and the done event, with
    the same response and the very source list of the sources event. *)
Theorem stream_rag_event_order {Score : Type} (env : Env Score) (query : string)
    (chat_history : option (list ChatTurn)) :
  let r := aretrieve (get_retriever env) query None in
  exists middle resp,
    stream_rag env query chat_history =
      SourcesEvent (sources r) (result_context r)
      :: middle ++
         [ChunkEvent resp false;
          DoneEvent resp (llm_model (rag_settings env))
            (llm_provider (rag_settings env)) (sources r)]
    /\ Forall (streaming_chunk_of resp) middle.
Proof.
  intros r.
  set (ds := deltas (astream (get_default_llm env true)
                       (prompt_of env query chat_history))).
  exists (map (fun text => ChunkEvent text true) (running "" ds)),
         (String.concat "" ds).
  split; [apply stream_rag_events|].
  apply Forall_forall. intros e He.
  apply list_elem_of_In, in_map_iff in He as (text & <- & Htext).
  exists text. split; [reflexivity|].
  destruct (running_prefixes ds "") as [_ Hchain].
  apply prefix_chain_last in Hchain.
  rewrite Forall_forall in Hchain. apply Hchain. now apply list_elem_of_In.
Qed.

(** X5. The streaming and the buffered mode agree on everything the
    retrieval and the settings decide, for every backend: the sources event
    carries the sources and the context of the final state of [run_rag], and
    the done event, which is the last event, carries its sources, model and
    provider. *)
Theorem stream_rag_agrees_with_run_rag {Score : Type} (env : Env Score)
    (query : string) (chat_history : option (list ChatTurn)) :
  let fin := run_rag env query chat_history in
  head (stream_rag env query chat_history)
    = Some (SourcesEvent (state_sources fin) (context fin))
  /\ exists resp,
       last (stream_rag env query chat_history)
       = Some (DoneEvent resp (model fin) (provider fin) (state_sources fin)).
Proof.
  intros fin. rewrite stream_rag_events. split; [reflexivity|].
  eexists.
  change [ChunkEvent ?a false; ?d] with ([ChunkEvent a false] ++ [d]).
  rewrite !app_assoc. rewrite last_snoc. reflexivity.
Qed.

(** X6. When the backend streams no chunk the generator takes up, the
    stream still has a chunk event and a done event, both with the empty
    response: sources, chunk "" (not streaming), done "". *)
Theorem stream_rag_without_deltas {Score : Type} (env : Env Score) (query : string)
    (chat_history : option (list ChatTurn)) :
  deltas (astream (get_default_llm env true) (prompt_of env query chat_history))
    = [] ->
  let r := aretrieve (get_retriever env) query None in
  stream_rag env query chat_history =
  [SourcesEvent (sources r) (result_context r);
   ChunkEvent "" false;
   DoneEvent "" (llm_model (rag_settings env)) (llm_provider (rag_settings env))
     (sources r)].
Proof.
  intros Hds r. rewrite stream_rag_events, Hds. reflexivity.
Qed.

Lemma stream_rag_without_deltas_witness :
  stream_rag
    (stub_env [] "" [""]) "anything" (Some [])
  = [SourcesEvent [] ""; ChunkEvent "" false; DoneEvent "" "gemma3:4b" "ollama" []].
Proof.
  apply (stream_rag_without_deltas (stub_env [] "" [""]) "anything" (Some [])).
  reflexivity.
Defined.

Lemma deltas_part_chunks (parts : list ContentPart) :
  deltas (map part_chunk parts) = map part_text parts.
Proof.
  induction parts as [|p parts IH]; [reflexivity|].
  cbn [map]. rewrite deltas_cons. cbn. now rewrite IH.
Qed.

(** X7. A backend whose buffered answer is a list of parts and whose stream
    carries those parts one per chunk satisfies the equivalence of the two
    modes: the response of [run_rag] is the response of the one done event
    of [stream_rag]. Parts without a "text" entry contribute nothing in
    either mode. *)
Theorem structured_answer_streams_like_buffered {Score : Type} (env : Env Score)
    (query : string) (chat_history : option (list ChatTurn))
    (parts : list ContentPart) :
  ainvoke (get_default_llm env false) (prompt_of env query chat_history)
    = ContentList parts ->
  astream (get_default_llm env true) (prompt_of env query chat_history)
    = map part_chunk parts ->
  done_responses (stream_rag env query chat_history)
    = [response (run_rag env query chat_history)]
  /\ response (run_rag env query chat_history)
     = String.concat "" (map part_text parts).
Proof.
  intros Hinvoke Hstream.
  rewrite done_responses_stream_rag, Hstream, deltas_part_chunks.
  change (response (run_rag env query chat_history))
    with (extract_content (ainvoke (get_default_llm env false)
                             (prompt_of env query chat_history))).
  rewrite Hinvoke. split; reflexivity.
Qed.

Lemma structured_answer_streams_like_buffered_witness :
  let parts := [PartStr "Hel"; PartDict {["type" := "tool_use"]};
                PartDict {["text" := "lo"]}] in
  let env : Env Q :=
    {| rag_settings := default_settings;
       get_retriever := new_retriever default_settings (fun _ _ => []) None;
       get_default_llm := fun _ =>
         {| ainvoke := fun _ => ContentList parts;
            astream := fun _ => map part_chunk parts |} |} in
  done_responses (stream_rag env "hi" None) = [response (run_rag env "hi" None)]
  /\ response (run_rag env "hi" None) = String.concat "" (map part_text parts).
Proof.
  intros parts env.
  apply (structured_answer_streams_like_buffered env "hi" None parts);
    reflexivity.
Defined.

Lemma deltas_filter_accepted (chunks : list StreamChunk) :
  deltas (filter accepted chunks) = deltas chunks.
Proof.
  induction chunks as [|chunk chunks IH]; [reflexivity|].
  rewrite filter_cons, (deltas_cons chunk chunks).
  destruct (accepted chunk) eqn:Hacc.
  - rewrite decide_True by exact I.
    rewrite deltas_cons, Hacc. now rewrite IH.
  - rewrite decide_False by exact id. exact IH.
Qed.

(** X8. [generate_streaming] yields one unit per chunk that is an AI message
    with non-empty content, plus the final unit; the other chunks of the
    backend's stream leave no trace: dropping them from the stream does not
    change what is yielded. *)
Theorem generate_streaming_ignores_empty_chunks {Score : Type}
    (env env' : Env Score) (state : RAGState Score) :
  let prompt := format_messages (context state) (messages state) in
  rag_settings env' = rag_settings env ->
  astream (get_default_llm env' true) prompt
    = filter accepted (astream (get_default_llm env true) prompt) ->
  generate_streaming env' state = generate_streaming env state
  /\ length (generate_streaming env state)
     = S (length (filter accepted (astream (get_default_llm env true) prompt))).
Proof.
  intros prompt Hsettings Hstream.
  rewrite !generate_streaming_running. fold prompt.
  rewrite Hstream, deltas_filter_accepted, Hsettings. split; [reflexivity|].
  rewrite length_app, !length_map. cbn [length].
  assert (Hlen : forall ds acc, length (running acc ds) = length ds).
  { intros ds. induction ds as [|d ds IH]; intros acc; [reflexivity|].
    cbn [running length]. now rewrite IH. }
  rewrite Hlen. unfold deltas. rewrite length_map. lia.
Qed.

Lemma generate_streaming_ignores_empty_chunks_witness :
  let noisy : Env Q :=
    {| rag_settings := default_settings;
       get_retriever := new_retriever default_settings (fun _ _ => []) None;
       get_default_llm := fun _ =>
         {| ainvoke := fun _ => ContentStr "Hello";
            astream := fun _ =>
              [text_chunk "Hel"; text_chunk "";
               {| is_ai_message := false; chunk_content := ContentStr "x" |};
               text_chunk "lo"] |} |} in
  let state : RAGState Q := initial_state "hi" None true in
  generate_streaming (stub_env [] "Hello" ["Hel"; "lo"]) state
    = generate_streaming noisy state
  /\ length (generate_streaming noisy state) = 3%nat.
Proof.
  intros noisy state.
  apply (generate_streaming_ignores_empty_chunks noisy
           (stub_env [] "Hello" ["Hel"; "lo"]) state); reflexivity.
Defined.

(** ** api/routers/rag.py: the SSE stream *)

Lemma string_drop_app (a d : string) :
  string_drop (String.length a) (a +:+ d) = d.
Proof. induction a as [|c a IH]; [reflexivity | exact IH]. Qed.

Lemma string_app_eq_self (a d : string) : a +:+ d = a -> d = "".
Proof.
  intros H. apply (String.app_inj a). now rewrite string_app_nil_r.
Qed.

Lemma on_updates_app {Score : Type} (trace_id : string) (latency_ms : Z)
    (st : GeneratorState Score) (updates1 updates2 : list (Event Score)) :
  on_updates trace_id latency_ms st (updates1 ++ updates2) =
  (fst (on_updates trace_id latency_ms st updates1)
   ++ fst (on_updates trace_id latency_ms
             (snd (on_updates trace_id latency_ms st updates1)) updates2),
   snd (on_updates trace_id latency_ms
          (snd (on_updates trace_id latency_ms st updates1)) updates2)).
Proof.
  revert st. induction updates1 as [|u updates1 IH]; intros st.
  - cbn. now destruct (on_updates _ _ st updates2).
  - cbn [app on_updates].
    destruct (on_update trace_id latency_ms st u) as [events st'].
    rewrite IH.
    destruct (on_updates trace_id latency_ms st' updates1) as [events' st''].
    cbn [fst snd]. now rewrite app_assoc.
Qed.

Lemma numbered_app {Score : Type} (n : Z) (data1 data2 : list (SSEData Score)) :
  numbered n (data1 ++ data2) =
  numbered n data1 ++ numbered (n + Z.of_nat (length data1)) data2.
Proof.
  revert n. induction data1 as [|d data1 IH]; intros n.
  - cbn. now rewrite Z.add_0_r.
  - cbn [app numbered length]. rewrite IH. do 3 f_equal. lia.
Qed.

(** The loop over the chunk events of a stream whose responses accumulate
    the deltas [ds]: one SSE chunk per non-empty delta, carrying the delta. *)
Lemma on_updates_running {Score : Type} (trace_id : string) (latency_ms : Z)
    (ds : list string) (st : GeneratorState Score) (acc : string) :
  last_response st = acc ->
  on_updates trace_id latency_ms st
    (map (fun text => ChunkEvent text true) (running acc ds)) =
  (numbered (event_id st + 1) (map ChunkData (filter (fun d => d <> "") ds)),
   {| event_id := event_id st
                  + Z.of_nat (length (filter (fun d => d <> "") ds));
      sources_sent := sources_sent st;
      last_response := acc +:+ String.concat "" ds;
      final_response := final_response st;
      final_sources := final_sources st;
      final_model := final_model st;
      final_provider := final_provider st |}).
Proof.
  revert st acc. induction ds as [|d ds IH]; intros st acc Hacc.
  - cbn. rewrite string_app_nil_r, Z.add_0_r. subst acc. now destruct st.
  - cbn [running map on_updates on_update]. rewrite filter_cons, concat_empty_cons.
    rewrite Hacc.
    destruct (decide (d <> "")) as [Hd|Hd].
    + destruct (String.eqb_spec (acc +:+ d) acc)
        as [Heq|_]; [apply string_app_eq_self in Heq; contradiction|].
      rewrite string_drop_app.
      rewrite (IH _ (acc +:+ d)) by reflexivity.
      cbn [event_id sources_sent last_response final_response final_sources
           final_model final_provider map numbered length].
      destruct d as [|c d]; [contradiction|].
      cbn [app]. rewrite string_app_assoc.
      rewrite Nat2Z.inj_succ, <- Z.add_1_l, Z.add_assoc. reflexivity.
    + assert (d = "") as -> by (destruct (decide (d = "")); [assumption|contradiction]).
      rewrite string_app_nil_r, String.eqb_refl.
      rewrite (IH st acc Hacc). reflexivity.
Qed.

(** [event_generator] over a completed run of [stream_rag]. *)
Lemma event_generator_stream_rag {Score : Type} (env : Env Score)
    (trace_id : string) (latency_ms : Z) (session_id : option string)
    (query : string) (chat_history : option (list ChatTurn)) :
  let r := aretrieve (get_retriever env) query None in
  let ds := deltas (astream (get_default_llm env true)
                      (prompt_of env query chat_history)) in
  let mdl := llm_model (rag_settings env) in
  let prov := llm_provider (rag_settings env) in
  event_generator (rag_settings env) trace_id latency_ms session_id
    (completed (stream_rag env query chat_history)) =
  (numbered 1
     (MetaData trace_id mdl prov session_id
      :: SourcesData (sources r)
      :: map ChunkData (filter (fun d => d <> "") ds)
      ++ [DoneData (String.concat "" ds) (sources r) mdl prov latency_ms trace_id]),
   match session_id, String.concat "" ds with
   | Some sid, String _ _ =>
       [AddMessage sid "assistant" (String.concat "" ds) (sources r) mdl prov;
        Commit]
   | _, _ => []
   end).
Proof.
  intros r ds mdl prov.
  unfold event_generator, completed. cbn [emitted failure].
  rewrite stream_rag_events. fold r ds mdl prov.
  cbn [app on_updates on_update sources_sent].
  rewrite on_updates_app.
  rewrite (on_updates_running trace_id latency_ms ds _ "") by reflexivity.
  cbn [fst snd on_updates on_update event_id sources_sent last_response
       final_response final_sources final_model final_provider].
  change ("" +:+ String.concat "" ds) with (String.concat "" ds).
  rewrite String.eqb_refl.
  cbn [app fst snd final_response final_sources final_model final_provider].
  f_equal.
  cbn [numbered]. do 2 f_equal.
  rewrite numbered_app, length_map. cbn [numbered].
  cbn [event_id]. do 3 f_equal. lia.
Qed.

Lemma omap_cons_eq {A B : Type} (f : A -> option B) (x : A) (l : list A) :
  omap f (x :: l) =
  match f x with Some y => y :: omap f l | None => omap f l end.
Proof. reflexivity. Qed.

Lemma chunk_texts_numbered {Score : Type} (n : Z) (data : list (SSEData Score)) :
  chunk_texts (numbered n data) =
  omap (fun d => match d with ChunkData text => Some text | _ => None end) data.
Proof.
  unfold chunk_texts. revert n.
  induction data as [|d data IH]; intros n; [reflexivity|].
  simpl. rewrite IH. reflexivity.
Qed.

Lemma sse_done_responses_numbered {Score : Type} (n : Z)
    (data : list (SSEData Score)) :
  sse_done_responses (numbered n data) =
  omap (fun d => match d with DoneData resp _ _ _ _ _ => Some resp | _ => None end)
       data.
Proof.
  unfold sse_done_responses. revert n.
  induction data as [|d data IH]; intros n; [reflexivity|].
  simpl. rewrite IH. reflexivity.
Qed.


(** X10. The SSE stream of a completed run has exactly one done event, and
    its response is the concatenation of the texts of the chunk events: a
    client that appends the chunks rebuilds the final response. *)
Theorem sse_chunks_rebuild_response {Score : Type} (env : Env Score)
    (trace_id : string) (latency_ms : Z) (session_id : option string)
    (query : string) (chat_history : option (list ChatTurn)) :
  let events :=
    fst (event_generator (rag_settings env) trace_id latency_ms session_id
           (completed (stream_rag env query chat_history))) in
  sse_done_responses events = [String.concat "" (chunk_texts events)].
Proof.
  intros events. subst events. rewrite event_generator_stream_rag. cbn [fst].
  rewrite chunk_texts_numbered, sse_done_responses_numbered.
  rewrite !omap_cons_eq. cbv beta iota. rewrite !omap_app.
  rewrite !omap_cons_eq. cbv beta iota.
  set (ds := deltas _).
  assert (Hchunks : forall l : list string,
            omap (fun d : SSEData Score =>
                    match d with ChunkData text => Some text | _ => None end)
                 (map ChunkData l) = l).
  { induction l as [|t l IH]; [reflexivity|]. cbn. now rewrite IH. }
  assert (Hdone : forall l : list string,
            omap (fun d : SSEData Score =>
                    match d with DoneData resp _ _ _ _ _ => Some resp | _ => None end)
                 (map ChunkData l) = []).
  { induction l as [|t l IH]; [reflexivity | exact IH]. }
  rewrite Hchunks, Hdone, app_nil_r. cbn [app].
  now rewrite concat_nonempty.
Qed.


Ltac yields_goal :=
  repeat match goal with
         | |- _ /\ _ => split
         | |- Forall _ [] => constructor
         | |- Forall _ (_ :: _) => constructor
         | |- StronglySorted _ [] => constructor
         | |- StronglySorted _ (_ :: _) => constructor
         | |- True => exact I
         end;
  cbn; try lia; try discriminate; try reflexivity.

(** What one update contributes: at most one event, numbered by the new
    value of [event_id]; a chunk event never has an empty text; a sources
    event is yielded only while none was sent. *)
Lemma on_update_yields {Score : Type} (trace_id : string) (latency_ms : Z)
    (st : GeneratorState Score) (update : Event Score) :
  let events := fst (on_update trace_id latency_ms st update) in
  let st' := snd (on_update trace_id latency_ms st update) in
  event_id st <= event_id st'
  /\ Forall (fun ev => event_id st < sse_event_id ev <= event_id st') events
  /\ StronglySorted Z.lt (map sse_event_id events)
  /\ Forall (fun text => text <> "") (chunk_texts events)
  /\ (length (sources_events events)
      <= (if sources_sent st then 0 else 1))%nat
  /\ (if sources_sent st' then True
      else sources_sent st = false /\ sources_events events = []).
Proof.
  destruct update as [srcs ctx|resp streaming|resp mdl prov srcs];
    cbn [on_update].
  - destruct (sources_sent st) eqn:Hsent; cbn; rewrite ?Hsent; yields_goal.
  - destruct (String.eqb resp (last_response st)); cbn.
    + destruct (sources_sent st); yields_goal.
    + destruct (string_drop _ resp) as [|c rest]; cbn;
        destruct (sources_sent st); yields_goal.
  - cbn. destruct (sources_sent st); yields_goal.
Qed.

Lemma on_updates_yields {Score : Type} (trace_id : string) (latency_ms : Z)
    (updates : list (Event Score)) (st : GeneratorState Score) :
  let events := fst (on_updates trace_id latency_ms st updates) in
  let st' := snd (on_updates trace_id latency_ms st updates) in
  event_id st <= event_id st'
  /\ Forall (fun ev => event_id st < sse_event_id ev <= event_id st') events
  /\ StronglySorted Z.lt (map sse_event_id events)
  /\ Forall (fun text => text <> "") (chunk_texts events)
  /\ (length (sources_events events)
      <= (if sources_sent st then 0 else 1))%nat.
Proof.
  revert st. induction updates as [|u updates IH]; intros st.
  - cbn. yields_goal; destruct (sources_sent st); lia.
  - cbn [on_updates].
    pose proof (on_update_yields trace_id latency_ms st u) as Hu.
    destruct (on_update trace_id latency_ms st u) as [events1 st1].
    pose proof (IH st1) as Hrest.
    destruct (on_updates trace_id latency_ms st1 updates) as [events2 st2].
    cbn [fst snd] in *.
    destruct Hu as (Hle1 & Hids1 & Hsorted1 & Hchunks1 & Hsrc1 & Hsent1).
    destruct Hrest as (Hle2 & Hids2 & Hsorted2 & Hchunks2 & Hsrc2).
    split; [lia|]. split; [|split; [|split]].
    + apply Forall_app. split.
      * eapply Forall_impl; [exact Hids1|]. cbn. intros ev Hev. lia.
      * eapply Forall_impl; [exact Hids2|]. cbn. intros ev Hev. lia.
    + rewrite map_app.
      assert (Hbound : Forall (fun n => event_id st1 < n) (map sse_event_id events2)).
      { apply Forall_forall. intros n Hn.
        apply list_elem_of_In, in_map_iff in Hn as (ev & <- & Hev).
        rewrite Forall_forall in Hids2.
        apply list_elem_of_In in Hev. specialize (Hids2 ev Hev). cbn in Hids2. lia. }
      clear - Hids1 Hsorted1 Hsorted2 Hbound.
      induction events1 as [|ev events1 IHev]; [exact Hsorted2|].
      cbn [map app]. inversion Hids1 as [|? ? Hev Hids1']; subst.
      inversion Hsorted1 as [|? ? Hs Hall]; subst.
      constructor; [now apply IHev|].
      apply Forall_app. split; [exact Hall|].
      eapply Forall_impl; [exact Hbound|]. cbn. intros n Hn. lia.
    + unfold chunk_texts in *. rewrite omap_app. apply Forall_app. now split.
    + unfold sources_events in *. rewrite omap_app, length_app.
      destruct (sources_sent st1) eqn:Hs1.
      * destruct (sources_sent st); lia.
      * destruct Hsent1 as [Hs0 Hnone]. rewrite Hs0, Hnone. cbn [length].
        rewrite Hs0 in Hsrc1. lia.
Qed.

(** X12. When the stream of the pipeline fails, [event_generator] keeps
    everything it had sent, closes the SSE stream with one error event that
    carries the message of the failure and has the highest event id, and
    writes nothing to the chat repository. *)
Theorem event_generator_failure {Score : Type} (rag_settings : RAGSettings)
    (trace_id : string) (latency_ms : Z) (session_id : option string)
    (events : list (Event Score)) (e : string) :
  let sent :=
    fst (event_generator rag_settings trace_id latency_ms session_id
           (completed events)) in
  exists n,
    event_generator rag_settings trace_id latency_ms session_id
      {| emitted := events; failure := Some e |}
    = (sent ++ [ {| sse_event_id := n; sse_data := ErrorData [e] trace_id |} ], [])
    /\ Forall (fun ev => sse_event_id ev < n) sent.
Proof.
  intros sent. subst sent. unfold event_generator, completed.
  cbn [emitted failure].
  match goal with
  | |- context [on_updates trace_id latency_ms ?st0 events] =>
      pose proof (on_updates_yields trace_id latency_ms events st0) as Hy;
      destruct (on_updates trace_id latency_ms st0 events) as [sse st]
  end.
  cbn [fst snd event_id] in *.
  destruct Hy as (Hle & Hids & _).
  exists (event_id st + 1). split; [reflexivity|].
  constructor; [cbn; lia|].
  eapply Forall_impl; [exact Hids|]. cbn. intros ev Hev. lia.
Qed.

(** X13. Whatever events the pipeline's stream carries, and whether or not
    it fails, the SSE stream starts with the meta event, its event ids
    increase strictly, no chunk event has an empty text, and at most one
    sources event is sent. *)
Theorem sse_stream_well_formed {Score : Type} (rag_settings : RAGSettings)
    (trace_id : string) (latency_ms : Z) (session_id : option string)
    (stream : StreamRun Score) :
  let events :=
    fst (event_generator rag_settings trace_id latency_ms session_id stream) in
  head events =
    Some {| sse_event_id := 1;
            sse_data := MetaData trace_id (llm_model rag_settings)
                          (llm_provider rag_settings) session_id |}
  /\ StronglySorted Z.lt (map sse_event_id events)
  /\ Forall (fun text => text <> "") (chunk_texts events)
  /\ (length (sources_events events) <= 1)%nat.
Proof.
  intros events. subst events. unfold event_generator.
  match goal with
  | |- context [on_updates trace_id latency_ms ?st0 (emitted stream)] =>
      pose proof (on_updates_yields trace_id latency_ms (emitted stream) st0) as Hy;
      destruct (on_updates trace_id latency_ms st0 (emitted stream)) as [sse st]
  end.
  cbn [fst snd event_id sources_sent] in Hy.
  destruct Hy as (Hle & Hids & Hsorted & Hchunks & Hsrc).
  assert (Hmeta : Forall (fun n => 1 < n) (map sse_event_id sse)).
  { apply Forall_forall. intros n Hn.
    apply list_elem_of_In, in_map_iff in Hn as (ev & <- & Hev).
    rewrite Forall_forall in Hids. apply list_elem_of_In in Hev.
    specialize (Hids ev Hev). cbn in Hids. lia. }
  destruct (failure stream) as [e|]; cbn [fst].
  - split; [reflexivity|]. split; [|split].
    + cbn [map]. constructor.
      * rewrite map_app. cbn [map].
        clear - Hids Hsorted.
        induction sse as [|ev sse IHsse]; [repeat constructor|].
        cbn [map app]. inversion Hids as [|? ? Hev Hids']; subst.
        inversion Hsorted as [|? ? Hs Hall]; subst.
        constructor; [now apply IHsse|].
        apply Forall_app. split; [exact Hall|].
        repeat constructor. cbn. lia.
      * rewrite map_app. apply Forall_app. split; [exact Hmeta|].
        repeat constructor. cbn. lia.
    + unfold chunk_texts in *. rewrite omap_cons_eq. cbv beta iota. cbn [sse_data].
      rewrite omap_app. apply Forall_app. split; [exact Hchunks | constructor].
    + unfold sources_events in *. rewrite omap_cons_eq. cbv beta iota. cbn [sse_data].
      rewrite omap_app, length_app. cbn. lia.
  - split; [reflexivity|]. split; [|split].
    + cbn [map]. constructor; assumption.
    + exact Hchunks.
    + exact Hsrc.
Qed.

(** ** api/routers/rag.py: from the request to the model's messages *)

Lemma filter_kept_all (turns : list ChatTurn) :
  Forall kept turns -> filter kept turns = turns.
Proof.
  induction 1 as [|turn turns Hturn _ IH]; [reflexivity|].
  rewrite filter_cons, decide_True by exact Hturn. now rewrite IH.
Qed.

(** X14. For a request whose messages all have the role "user" or
    "assistant" and whose last message is the user's, the chat endpoints
    hand the pipeline a query and a history from which [run_rag] rebuilds
    the request's conversation message by message: user turns as human
    messages, assistant turns as AI messages, in order. *)
Theorem request_conversation_reaches_model {Score : Type} (env : Env Score)
    (earlier : list ChatTurn) (current : ChatTurn) :
  Forall kept earlier ->
  role current = "user" ->
  exists query history,
    request_inputs (earlier ++ [current]) = Some (query, history)
    /\ messages (run_rag env query (Some history))
       = map turn_message (earlier ++ [current]).
Proof.
  intros Hroles Huser.
  exists (turn_content current), earlier. split.
  - unfold request_inputs. now rewrite last_snoc, removelast_last.
  - change (messages (run_rag env (turn_content current) (Some earlier)))
      with (build_messages (turn_content current) (Some earlier)).
    rewrite build_messages_spec. unfold spec_messages. cbn [default].
    rewrite filter_kept_all by exact Hroles.
    rewrite map_app. cbn [map]. unfold turn_message at 3.
    now rewrite decide_True by exact Huser.
Qed.

Lemma request_conversation_reaches_model_witness :
  exists query history,
    request_inputs
      ([ {| role := "user"; turn_content := "What is RAG?" |};
         {| role := "assistant"; turn_content := "Retrieval plus generation." |} ]
       ++ [ {| role := "user"; turn_content := "Which files mention it?" |} ])
    = Some (query, history)
    /\ messages (run_rag (stub_env [] "None." []) query (Some history))
       = map turn_message
           ([ {| role := "user"; turn_content := "What is RAG?" |};
              {| role := "assistant"; turn_content := "Retrieval plus generation." |} ]
            ++ [ {| role := "user"; turn_content := "Which files mention it?" |} ]).
Proof.
  apply (request_conversation_reaches_model (stub_env [] "None." [])).
  - constructor; [now left|]. constructor; [now right|]. constructor.
  - reflexivity.
Defined.

(** ** retriever.py: when the formatted key tells the tuples apart *)

Lemma split_at_first_colon (a a' r r' : string) :
  has_char COLON a = false -> has_char COLON a' = false ->
  a +:+ ":" +:+ r = a' +:+ ":" +:+ r' -> a = a' /\ r = r'.
Proof.
  revert a'. induction a as [|c a IH]; intros [|c' a'] Ha Ha' Heq.
  - cbn in Heq. now inversion Heq.
  - rewrite string_app_cons in Heq. cbn in Heq. inversion Heq; subst c'.
    cbn in Ha'. discriminate Ha'.
  - rewrite string_app_cons in Heq. cbn in Heq. inversion Heq; subst c.
    cbn in Ha. discriminate Ha.
  - rewrite !string_app_cons in Heq. inversion Heq; subst c'.
    cbn [has_char] in Ha, Ha'.
    destruct (Ascii.eqb c COLON); [discriminate|].
    destruct (IH a' Ha Ha' H1) as [-> ->]. now split.
Qed.

Lemma pretty_N_go_has_char (c : Ascii.ascii) (x : N) (s : string) :
  (forall n, pretty_N_char n <> c) ->
  has_char c s = false -> has_char c (pretty_N_go x s) = false.
Proof.
  intros Hdigits. revert s.
  induction (N.lt_wf_0 x) as [x _ IH]; intros s Hs.
  assert (x = 0 \/ 0 < x)%N as [->|Hpos] by lia.
  - now rewrite pretty_N_go_0.
  - rewrite pretty_N_go_step by exact Hpos. apply IH.
    + apply N.div_lt; [exact Hpos | reflexivity].
    + cbn [has_char].
      destruct (Ascii.eqb_spec (pretty_N_char (x `mod` 10)) c) as [Heq|_];
        [now apply Hdigits in Heq | exact Hs].
Qed.

(** The decimal form of an integer consists of digits and a minus sign. *)
Lemma pretty_Z_has_char (c : Ascii.ascii) (z : Z) :
  (forall n, pretty_N_char n <> c) -> c <> Ascii.ascii_of_nat 45 ->
  has_char c (pretty z) = false.
Proof.
  intros Hdigits Hdash.
  assert (Hpos : forall p : positive, has_char c (pretty p) = false).
  { intros p. unfold pretty, pretty_positive, pretty, pretty_N.
    rewrite decide_False by discriminate.
    now apply pretty_N_go_has_char. }
  destruct z as [|p|p]; unfold pretty, pretty_Z.
  - cbn [has_char].
    match goal with
    | |- context [Ascii.eqb ?a c] =>
        destruct (Ascii.eqb_spec a c) as [Heq|_]; [|reflexivity]
    end.
    exfalso. apply (Hdigits 0%N). exact Heq.
  - apply Hpos.
  - change ("-" +:+ pretty p) with (String (Ascii.ascii_of_nat 45) (pretty p)).
    cbn [has_char].
    match goal with
    | |- context [Ascii.eqb ?a c] =>
        destruct (Ascii.eqb_spec a c) as [Heq|_];
          [now symmetry in Heq | apply Hpos]
    end.
Qed.

Ltac not_a_digit :=
  let n := fresh "n" in
  intros n; unfold pretty_N_char; repeat case_match; discriminate.

Lemma format_int_no_colon (x : option Z) : has_char COLON (format_int x) = false.
Proof.
  destruct x as [z|]; [|reflexivity].
  apply pretty_Z_has_char; [not_a_digit | discriminate].
Qed.

Lemma format_int_inj (x y : option Z) : format_int x = format_int y -> x = y.
Proof.
  assert (Hnone : forall z : Z, pretty z <> "None").
  { intros z Heq.
    assert (H : has_char (Ascii.ascii_of_nat 78) (pretty z) = false).
    { apply pretty_Z_has_char; [not_a_digit | discriminate]. }
    rewrite Heq in H. discriminate H. }
  destruct x as [z|], y as [z'|]; cbn; intros Heq.
  - f_equal. now apply (inj pretty).
  - now apply Hnone in Heq.
  - symmetry in Heq. now apply Hnone in Heq.
  - reflexivity.
Qed.

(** On citations with colon-free file names and no sheet named [None], the
    formatted key determines the tuple. *)
Lemma source_key_inj_plain {Score : Type} (s1 s2 : SourceInfo Score) :
  plain_citation s1 -> plain_citation s2 ->
  source_key s1 = source_key s2 -> source_tuple s1 = source_tuple s2.
Proof.
  intros [Hname1 Hsheet1] [Hname2 Hsheet2] Hkey.
  unfold source_key in Hkey.
  apply split_at_first_colon in Hkey as [Hname Hkey]; [|assumption..].
  apply split_at_first_colon in Hkey as [Hpage Hkey];
    [|apply format_int_no_colon..].
  apply split_at_first_colon in Hkey as [Hslide Hsheet];
    [|apply format_int_no_colon..].
  apply format_int_inj in Hpage. apply format_int_inj in Hslide.
  unfold source_tuple. rewrite Hname, Hpage, Hslide. f_equal.
  destruct (sheet s1) as [sh1|], (sheet s2) as [sh2|]; cbn in Hsheet;
    subst; try reflexivity; contradiction.
Qed.

(** X15. When no retrieved chunk has a colon in its file name or a sheet
    named "None", [retrieve] deduplicates by the tuple (filename, page,
    slide, sheet) exactly: for every tuple, the source list holds the
    citation of the first retrieved chunk with that tuple, carrying its
    score, and nothing else with that tuple. *)
Theorem retrieve_dedups_plain_citations {Score : Type}
    (self : DocumentRetriever Score) (query : string) (k : option Z)
    (t : string * option Z * option Z * option string) :
  let results :=
    similarity_search_with_score self query (or_default k (self_k self)) in
  Forall plain_citation (citations results) ->
  filter (fun s => source_tuple s = t) (sources (retrieve self query k))
  = option_list (first_with_tuple t results).
Proof.
  intros results Hplain.
  apply retrieve_dedups_by_tuple_without_collision.
  fold results. intros s1 s2 Hs1 Hs2.
  rewrite Forall_forall in Hplain.
  apply source_key_inj_plain; now apply Hplain.
Qed.

Lemma retrieve_dedups_plain_citations_witness :
  let page1 := {| page_content := "intro";
                  metadata := {| md_source := Some "docs/test.pdf";
                                 md_filename := Some "test.pdf";
                                 md_page := Some 1; md_slide := None;
                                 md_sheet := None |} |} in
  let self : DocumentRetriever Q :=
    new_retriever default_settings
      (fun _ _ => [(page1, 1 # 10); (page1, 3 # 10)]%Q) None in
  filter (fun s => source_tuple s = ("test.pdf", Some 1, None, None))
    (sources (retrieve self "what is in the documents?" None))
  = option_list
      (first_with_tuple ("test.pdf", Some 1, None, None)
         (similarity_search_with_score self "what is in the documents?"
            (or_default None (self_k self)))).
Proof.
  intros page1 self.
  apply (retrieve_dedups_plain_citations self "what is in the documents?" None).
  repeat constructor; discriminate.
Defined.

(** ** loaders.py: the format loaders *)

Lemma load_pdf_from_elem (source name : string) (total : Z) (pages : list string)
    (i : nat) (d : LoadedDocument) :
  d ∈ load_pdf_from source name total i pages <->
  exists j text,
    pages !! j = Some text /\ blank text = false
    /\ d = pdf_document source name text (Z.of_nat (i + j) + 1) total.
Proof.
  revert i. induction pages as [|text pages IH]; intros i.
  - cbn. split; [intros H; inversion H | intros (j & t & H & _); discriminate H].
  - cbn [load_pdf_from]. rewrite elem_of_app, IH. split.
    + intros [Hhead|(j & t & Hj & Hblank & ->)].
      * destruct (blank text) eqn:Hblank; [inversion Hhead|].
        apply list_elem_of_singleton in Hhead. subst d.
        exists 0%nat, text. rewrite Nat.add_0_r. now repeat split.
      * exists (S j), t. repeat split; auto.
        now replace (i + S j)%nat with (S i + j)%nat by lia.
    + intros ([|j] & t & Hj & Hblank & ->).
      * cbn in Hj. inversion Hj; subst t. left. rewrite Hblank, Nat.add_0_r.
        now apply list_elem_of_singleton.
      * right. exists j, t. repeat split; auto.
        now replace (S i + j)%nat with (i + S j)%nat by lia.
Qed.

Lemma load_pdf_from_numbers (source name : string) (total : Z)
    (pages : list string) (i : nat) :
  Forall (fun d => exists n, md_page (metadata (loaded d)) = Some n
                             /\ Z.of_nat i < n
                             /\ loaded_tuple d = (name, Some n, None, None))
         (load_pdf_from source name total i pages)
  /\ NoDup (map loaded_tuple (load_pdf_from source name total i pages)).
Proof.
  revert i. induction pages as [|text pages IH]; intros i.
  - cbn. split; constructor.
  - cbn [load_pdf_from]. destruct (IH (S i)) as [Hall Hnodup].
    assert (Hall' : Forall (fun d => exists n,
                md_page (metadata (loaded d)) = Some n /\ Z.of_nat i < n
                /\ loaded_tuple d = (name, Some n, None, None))
              (load_pdf_from source name total (S i) pages)).
    { eapply Forall_impl; [exact Hall|]. cbn.
      intros d (n & Hn & Hlt & Ht). exists n. repeat split; auto. lia. }
    destruct (blank text); cbn [app]; [now split|]. split.
    + constructor; [|exact Hall'].
      exists (Z.of_nat i + 1). repeat split. lia.
    + cbn [map]. constructor; [|exact Hnodup].
      intros Hin. apply list_elem_of_In, in_map_iff in Hin as (d & Ht & Hd).
      rewrite Forall_forall in Hall. apply list_elem_of_In in Hd.
      destruct (Hall d Hd) as (n & _ & Hlt & Ht').
      rewrite Ht' in Ht. cbn in Ht. inversion Ht. lia.
Qed.

(** X16. [load_pdf] returns exactly one document per page whose text is not
    blank: the document of the page at position i (from 0) has that page's
    text unchanged, page number i + 1 and as total the number of all pages,
    blank ones included; blank pages are skipped without renumbering, and no
    two documents of a file have the same citation tuple. *)
Theorem load_pdf_page_numbers (source name : string) (pages : list string) :
  (forall d,
     d ∈ load_pdf source name pages <->
     exists i text,
       pages !! i = Some text /\ blank text = false
       /\ d = pdf_document source name text (Z.of_nat i + 1)
                (Z.of_nat (length pages)))
  /\ NoDup (map loaded_tuple (load_pdf source name pages)).
Proof.
  split.
  - intros d. unfold load_pdf. rewrite load_pdf_from_elem. reflexivity.
  - apply load_pdf_from_numbers.
Qed.

Lemma load_pptx_from_elem (source name : string) (total : Z)
    (slides : list (list (option string))) (i : nat) (d : LoadedDocument) :
  d ∈ load_pptx_from source name total i slides <->
  exists j shapes,
    slides !! j = Some shapes /\ slide_texts shapes <> []
    /\ d = pptx_document source name (String.concat LF (slide_texts shapes))
             (Z.of_nat (i + j) + 1) total.
Proof.
  revert i. induction slides as [|shapes slides IH]; intros i.
  - cbn. split; [intros H; inversion H | intros (j & t & H & _); discriminate H].
  - cbn [load_pptx_from]. rewrite elem_of_app, IH. split.
    + intros [Hhead|(j & t & Hj & Htexts & ->)].
      * destruct (slide_texts shapes) as [|t0 ts] eqn:Htexts; [inversion Hhead|].
        apply list_elem_of_singleton in Hhead. subst d.
        exists 0%nat, shapes. rewrite Nat.add_0_r, Htexts. now repeat split.
      * exists (S j), t. repeat split; auto.
        now replace (i + S j)%nat with (S i + j)%nat by lia.
    + intros ([|j] & t & Hj & Htexts & ->).
      * cbn in Hj. inversion Hj; subst t. left.
        destruct (slide_texts shapes) as [|t0 ts] eqn:Heq; [contradiction|].
        rewrite Nat.add_0_r. now apply list_elem_of_singleton.
      * right. exists j, t. repeat split; auto.
        now replace (S i + j)%nat with (i + S j)%nat by lia.
Qed.

Lemma load_pptx_from_numbers (source name : string) (total : Z)
    (slides : list (list (option string))) (i : nat) :
  Forall (fun d => exists n, Z.of_nat i < n
                             /\ loaded_tuple d = (name, None, Some n, None))
         (load_pptx_from source name total i slides)
  /\ NoDup (map loaded_tuple (load_pptx_from source name total i slides)).
Proof.
  revert i. induction slides as [|shapes slides IH]; intros i.
  - cbn. split; constructor.
  - cbn [load_pptx_from]. destruct (IH (S i)) as [Hall Hnodup].
    assert (Hall' : Forall (fun d => exists n, Z.of_nat i < n
                /\ loaded_tuple d = (name, None, Some n, None))
              (load_pptx_from source name total (S i) slides)).
    { eapply Forall_impl; [exact Hall|]. cbn.
      intros d (n & Hlt & Ht). exists n. split; [lia | exact Ht]. }
    destruct (slide_texts shapes) as [|t0 ts]; cbn [app]; [now split|]. split.
    + constructor; [|exact Hall'].
      exists (Z.of_nat i + 1). split; [lia | reflexivity].
    + cbn [map]. constructor; [|exact Hnodup].
      intros Hin. apply list_elem_of_In, in_map_iff in Hin as (d & Ht & Hd).
      rewrite Forall_forall in Hall. apply list_elem_of_In in Hd.
      destruct (Hall d Hd) as (n & Hlt & Ht').
      rewrite Ht' in Ht. cbn in Ht. inversion Ht. lia.
Qed.

(** X17. [load_pptx] returns exactly one document per slide that has a shape
    with a non-empty text: its content is these texts joined by line feeds,
    its slide number is the slide's position plus one and its total the
    number of all slides; no two documents of a file have the same citation
    tuple. The texts are not stripped, so a slide whose only texts are white
    space yields a document with a blank text. *)
Theorem load_pptx_slide_numbers (source name : string) :
  (forall slides d,
     d ∈ load_pptx source name slides <->
     exists i shapes,
       slides !! i = Some shapes /\ slide_texts shapes <> []
       /\ d = pptx_document source name (String.concat LF (slide_texts shapes))
                (Z.of_nat i + 1) (Z.of_nat (length slides)))
  /\ (forall slides, NoDup (map loaded_tuple (load_pptx source name slides)))
  /\ (exists slides d,
        d ∈ load_pptx source name slides
        /\ blank (page_content (loaded d)) = true).
Proof.
  split; [|split].
  - intros slides d. unfold load_pptx. rewrite load_pptx_from_elem. reflexivity.
  - intros slides. apply load_pptx_from_numbers.
  - exists [[None; Some " "; Some ""]],
           (pptx_document source name " " 1 1).
    split; [|reflexivity]. cbn. now apply list_elem_of_singleton.
Qed.


(** ** loaders.py: load_directory *)




(** ** indexer.py: the indexer object *)

(** X20. [clear_index] deletes the collection only if the indexer has
    already created its store handle: on an indexer that never used the
    store it makes the single call that creates the handle, and deletes
    nothing. Otherwise it calls delete, ignores a failure of the deletion,
    and creates the handle again. It raises exactly when the creation
    fails, and the handle is set afterwards exactly when it does not
    raise. *)
Theorem clear_index_store_calls (b : StoreBehaviour) (st : IndexerState) :
  let out := Indexer.clear_index b st in
  let deleted := if store_open st then [DeleteCollection] else [] in
  new_calls st (snd out) = deleted ++ [CreateStore]
  /\ fst out = match create_error b (calls st ++ deleted) with
               | Some e => inr e
               | None => inl tt
               end
  /\ store_open (snd out) = (match fst out with inl _ => true | inr _ => false end).
Proof.
  intros out deleted. subst out. rewrite clear_index_run. fold deleted.
  destruct (create_error b (calls st ++ deleted)); cbn [fst snd store_open];
    rewrite new_calls_app; now repeat split.
Qed.

(** X21. [get_document_count] never raises. It creates the store handle if
    there is none; when the creation fails it returns 0 and the handle stays
    unset. Otherwise it asks the store for its count once and returns the
    count the store gives for that call, or 0 when the call fails. It never
    deletes or adds anything. *)
Theorem get_document_count_never_raises (b : StoreBehaviour) (st : IndexerState) :
  let out := Indexer.get_document_count b st in
  let created := if store_open st then [] else [CreateStore] in
  let unopened := if store_open st then None else create_error b (calls st) in
  match unopened with
  | Some _ =>
      out = (inl 0, {| store_open := false;
                       calls := calls st ++ [CreateStore] |})
  | None =>
      out = (inl (match count_reply b (calls st ++ created) with
                  | inl n => n
                  | inr _ => 0
                  end),
             {| store_open := true;
                calls := calls st ++ created ++ [CountDocuments] |})
  end.
Proof.
  intros out created unopened. subst out created unopened.
  unfold Indexer.get_document_count, Indexer.try_except, Indexer.bind,
    Indexer.vector_store, Indexer.ret.
  destruct st as [[|] cs]; cbn [store_open calls].
  - rewrite app_nil_r. cbn [app]. now destruct (count_reply b cs).
  - destruct (create_error b cs) as [e|]; cbn [store_open calls];
      [reflexivity|].
    rewrite <- app_assoc. now destruct (count_reply b (cs ++ [CreateStore])).
Qed.

(** The calls [add_documents] makes: at most a creation of the handle, then
    at most the call that adds the chunks. *)
Lemma add_documents_calls (b : StoreBehaviour) (chunks : list Document)
    (st : IndexerState) :
  exists outcome open added,
    Indexer.add_documents b chunks st
    = (outcome, {| store_open := open; calls := calls st ++ added |})
    /\ Forall (fun c => c = CreateStore \/ c = AddDocuments chunks) added.
Proof.
  rewrite add_documents_run. cbv zeta. destruct (store_open st).
  - do 3 eexists. split; [reflexivity|]. constructor; [now right | constructor].
  - destruct (create_error b (calls st)); do 3 eexists;
      (split; [reflexivity|]); (constructor; [now left|]); [constructor|].
    constructor; [now right | constructor].
Qed.

(** X22. [index_documents] deletes the collection exactly when it is asked
    to clear and the indexer had already created its store handle. Run on
    an indexer that never used the store, as in a fresh process, it deletes
    nothing even with [clear_existing]. *)
Theorem index_documents_deletes_only_open_store (b : StoreBehaviour)
    (fs : string -> option (list FileEntry))
    (splitter : list Document -> list Document) (rag_settings : RAGSettings)
    (docs_dir_arg : option string) (clear_existing : bool) (st : IndexerState) :
  let out :=
    Indexer.index_documents b fs splitter rag_settings docs_dir_arg
      clear_existing st in
  DeleteCollection ∈ new_calls st (snd out)
  <-> clear_existing = true /\ store_open st = true.
Proof.
  intros out. subst out. unfold Indexer.index_documents. cbv zeta.
  rewrite index_run_spelled. cbv zeta.
  assert (Hcleared : exists outcome open added,
            (if clear_existing then Indexer.clear_index b st else (inl tt, st))
            = (outcome, {| store_open := open; calls := calls st ++ added |})
            /\ (DeleteCollection ∈ added
                <-> clear_existing = true /\ store_open st = true)
            /\ (outcome = inl tt \/ exists e, outcome = inr e)).
  { destruct clear_existing.
    - rewrite clear_index_run. cbv zeta.
      destruct (create_error b _) as [e|];
        do 3 eexists; (split; [reflexivity|]); (split; [|eauto]);
        destruct (store_open st); cbn;
        rewrite ?elem_of_cons, ?elem_of_nil; intuition congruence.
    - exists (inl tt), (store_open st), []. rewrite app_nil_r.
      split; [now destruct st|]. split; [|now left].
      rewrite elem_of_nil. intuition congruence. }
  destruct Hcleared as (outcome & open & added & -> & Hdel & Hout).
  cbn [fst snd].
  assert (Hskip : DeleteCollection
                    ∈ new_calls st {| store_open := open;
                                      calls := calls st ++ added |}
                  <-> clear_existing = true /\ store_open st = true)
    by now rewrite new_calls_app.
  destruct Hout as [->|[e ->]]; [|exact Hskip].
  destruct (yielded _) as [|doc docs]; [exact Hskip|].
  destruct (splitter _) as [|chunk chunks] eqn:Hsplit; [exact Hskip|].
  destruct (add_documents_calls b (chunk :: chunks)
              {| store_open := open; calls := calls st ++ added |})
    as (outcome' & open' & added' & -> & Hadded).
  cbn [calls] in *.
  assert (Hnew : DeleteCollection
                   ∈ new_calls st {| store_open := open';
                                     calls := (calls st ++ added) ++ added' |}
                 <-> clear_existing = true /\ store_open st = true).
  { rewrite <- app_assoc, new_calls_app, elem_of_app, Hdel.
    split; [intros [H|H]; [exact H|] | now left].
    rewrite Forall_forall in Hadded.
    destruct (Hadded _ H) as [Hc|Hc]; discriminate Hc. }
  now destruct outcome' as [[]|e'].
Qed.



(** ** scripts/create_index.py *)

(** An indexing run of the script, spelled out. *)
Lemma main_run (env : ScriptEnv) (args : Args) :
  let dir := default (docs_dir (settings env)) (arg_path args) in
  let run := load_directory dir (file_system env dir) in
  let chunks := splitter_of env (yielded run) in
  let created (open : bool) :=
    {| store_open := open; calls := [CreateStore] |} in
  arg_status args = false ->
  CreateIndex.main env args fresh_indexer =
  if CreateIndex.missing_path env args then (inl 1, fresh_indexer)
  else
    match indexer_error env with
    | Some _ => (inl 1, fresh_indexer)
    | None =>
        match yielded run, chunks with
        | [], _ | _, [] =>
            (inl 1,
             if arg_clear args
             then created (bool_decide (create_error (store env) [] = None))
             else fresh_indexer)
        | _, _ =>
            match create_error (store env) [] with
            | Some _ => (inl 1, created false)
            | None =>
                (inl (match add_error (store env) [CreateStore] chunks with
                      | Some _ => 1
                      | None => 0
                      end),
                 {| store_open := true;
                    calls := [CreateStore; AddDocuments chunks] |})
            end
        end
    end.
Proof.
  intros dir run chunks created Hstatus.
  unfold CreateIndex.main. rewrite Hstatus.
  destruct (CreateIndex.missing_path env args); [reflexivity|].
  unfold Indexer.bind at 1, Indexer.try_except, Indexer.bind at 1,
    CreateIndex.index_documents, Indexer.bind at 1, get_indexer.
  destruct (indexer_error env) as [e0|]; [reflexivity|].
  assert (Hdef : forall d x : string, default d (Some x) = x) by reflexivity.
  unfold Indexer.index_documents. cbv zeta. rewrite !Hdef. fold dir.
  rewrite index_run_spelled. cbv zeta.
  subst chunks run created. clearbody dir. unfold fresh_indexer.
  pose proof (load_directory_yields_no_error dir (file_system env dir)) as Hload.
  destruct (arg_clear args).
  - rewrite clear_index_run. cbn [store_open calls app].
    destruct (create_error (store env) []) as [e|] eqn:Hcreate; cbn [fst snd].
    + destruct (yielded _) as [|doc docs]; [reflexivity|].
      now destruct (splitter_of env _).
    + destruct (yielded (load_directory dir (file_system env dir)))
        as [|doc docs] eqn:Hdocs.
      * now destruct (load_errors _).
      * destruct (splitter_of env (doc :: docs)) as [|chunk chunks] eqn:Hsplit;
          [reflexivity|].
        rewrite add_documents_run. cbv zeta. cbn [store_open calls app].
        rewrite Hload by discriminate.
        now destruct (add_error (store env) [CreateStore] (chunk :: chunks)).
  - cbn [fst snd].
    destruct (yielded (load_directory dir (file_system env dir)))
      as [|doc docs] eqn:Hdocs.
    + now destruct (load_errors _).
    + destruct (splitter_of env (doc :: docs)) as [|chunk chunks] eqn:Hsplit;
        [reflexivity|].
      rewrite add_documents_run. cbv zeta. cbn [store_open calls app].
      rewrite Hload by discriminate.
      destruct (create_error (store env) []) as [e|]; [reflexivity|].
      now destruct (add_error (store env) [CreateStore] (chunk :: chunks)).
Qed.

(** X24. Run by the script, [--clear] clears nothing. The script's process
    has just built its indexer, whose store handle is not set, so no run of
    [main] ever deletes the collection; with and without [--clear] the exit
    code is the same and the same lists of chunks are handed to the store's
    [add_documents]. *)
Theorem main_clear_deletes_nothing (env : ScriptEnv) (path : option string)
    (status : bool) :
  let run clear :=
    CreateIndex.main env
      {| arg_path := path; arg_clear := clear; arg_status := status |}
      fresh_indexer in
  (DeleteCollection ∉ calls (snd (run true)))
  /\ fst (run true) = fst (run false)
  /\ forall chunks,
       AddDocuments chunks ∈ calls (snd (run true))
       <-> AddDocuments chunks ∈ calls (snd (run false)).
Proof.
  intros run. subst run. cbv beta. destruct status.
  - split; [|now split].
    cbv beta iota delta
      [CreateIndex.main CreateIndex.show_status Indexer.bind get_indexer
       Indexer.get_document_count Indexer.try_except Indexer.vector_store
       Indexer.ret fresh_indexer arg_status store_open calls].
    destruct (indexer_error env); cbn [snd calls]; [apply not_elem_of_nil|].
    destruct (create_error (store env) []); cbn [snd calls store_open app].
    + rewrite elem_of_cons, elem_of_nil. intuition discriminate.
    + destruct (count_reply (store env) [CreateStore]); cbn [snd calls app];
        rewrite !elem_of_cons, elem_of_nil; intuition discriminate.
  - rewrite !main_run by reflexivity. cbv zeta.
    unfold CreateIndex.missing_path. cbn [arg_path arg_clear].
    set (dir := default (docs_dir (settings env)) path).
    assert (Hnone : forall open,
              (DeleteCollection
                 ∉ calls {| store_open := open; calls := [CreateStore] |})
              /\ forall chunks,
                   AddDocuments chunks
                     ∈ calls {| store_open := open; calls := [CreateStore] |}
                   <-> AddDocuments chunks ∈ calls fresh_indexer).
    { intros open. cbn [calls fresh_indexer]. split; [|intros chunks];
        rewrite elem_of_cons, !elem_of_nil; intuition discriminate. }
    destruct (match path with
              | Some p => match file_system env p with
                          | Some _ => false
                          | None => true
                          end
              | None => false
              end);
      [split; [apply not_elem_of_nil | now split]|].
    destruct (indexer_error env);
      [split; [apply not_elem_of_nil | now split]|].
    destruct (yielded _) as [|doc docs].
    { cbn [fst snd]. split; [apply Hnone|]. split; [reflexivity|apply Hnone]. }
    destruct (splitter_of env _) as [|chunk chunks0].
    { cbn [fst snd]. split; [apply Hnone|]. split; [reflexivity|apply Hnone]. }
    destruct (create_error (store env) []); cbn [fst snd calls].
    + split; [|now split].
      rewrite elem_of_cons, elem_of_nil. intuition discriminate.
    + split; [|now split].
      rewrite !elem_of_cons, elem_of_nil. intuition discriminate.
Qed.


